(** * The document ingestion pipeline of [ingest.py]

    A shallow embedding of the ingestion script: the loader registry and the
    dispatch on a file's extension, the directory scan with its exclusion
    list, the existence check on the vector store, the batched submission of
    chunks, and the driver [main] that ties them together.

    Python strings are modelled as [string] (one [ascii] per character, so
    [str.lower] and [str.upper] act on the letters A-Z and a-z only), lists as
    [list], the dict [LOADER_MAPPING] as an association list in source order
    (the scan iterates over it), and the side effects of the script as a state
    and exception monad over a [World] that records every call made to a
    collaborator. *)

From Stdlib Require Import String Ascii List Bool Arith Lia Permutation.
Import ListNotations.
Local Open Scope string_scope.
Local Open Scope list_scope.
Local Open Scope nat_scope.

Set Implicit Arguments.

(** ** Strings as Python uses them in the script *)

Module PyStr.

Definition is_upper (c : ascii) : bool :=
  let n := nat_of_ascii c in (65 <=? n) && (n <=? 90).

Definition is_lower (c : ascii) : bool :=
  let n := nat_of_ascii c in (97 <=? n) && (n <=? 122).

Definition lower_char (c : ascii) : ascii :=
  if is_upper c then ascii_of_nat (nat_of_ascii c + 32) else c.

Definition upper_char (c : ascii) : ascii :=
  if is_lower c then ascii_of_nat (nat_of_ascii c - 32) else c.

Fixpoint map_chars (f : ascii -> ascii) (s : string) : string :=
  match s with
  | EmptyString => EmptyString
  | String c rest => String (f c) (map_chars f rest)
  end.

(** [s.lower()] and [s.upper()] on ASCII text.  Python also changes the case
    of letters outside ASCII, which are left as they are here; since every
    key of the registry is made of ASCII letters other than k (the one ASCII
    letter a character outside ASCII lowercases to), whether a lowercased
    extension is a key is the same either way, and only the text of an
    extension that holds such letters differs. *)
Definition lower : string -> string := map_chars lower_char.
Definition upper : string -> string := map_chars upper_char.

(** [c in s] for a single character [c]. *)
Fixpoint mem_char (c : ascii) (s : string) : bool :=
  match s with
  | EmptyString => false
  | String d rest => Ascii.eqb d c || mem_char c rest
  end.

(** [s.rsplit(sep, 1)[-1]] for a one-character separator: what follows the
    last occurrence of [sep], or all of [s] when [sep] does not occur. *)
Fixpoint rsplit_last (sep : ascii) (s : string) : string :=
  match s with
  | EmptyString => EmptyString
  | String c rest =>
      if mem_char sep rest then rsplit_last sep rest
      else if Ascii.eqb c sep then rest
      else s
  end.

(** [s.startswith(p)]. *)
Fixpoint startswith (p s : string) : bool :=
  match p, s with
  | EmptyString, _ => true
  | String _ _, EmptyString => false
  | String a p', String b s' => Ascii.eqb a b && startswith p' s'
  end.

(** [sub in s]. *)
Fixpoint contains (sub s : string) : bool :=
  startswith sub s ||
  match s with
  | EmptyString => false
  | String _ rest => contains sub rest
  end.

(** [s.endswith(suffix)]. *)
Fixpoint endswith (suffix s : string) : bool :=
  String.eqb suffix s ||
  match s with
  | EmptyString => false
  | String _ rest => endswith suffix rest
  end.

(** [x in xs] for a list of strings: comparison with [==]. *)
Definition mem (x : string) (xs : list string) : bool :=
  existsb (String.eqb x) xs.

End PyStr.

(** ** Documents, exceptions and the loader registry *)

(** A langchain [Document]: text and a metadata dict. *)
Record Document : Type := mkDocument {
  page_content : string;
  metadata : list (string * string)
}.

(** [d[key]] on a dict held as an association list. *)
Fixpoint dict_get (A : Type) (key : string) (d : list (string * A)) : option A :=
  match d with
  | [] => None
  | (k, v) :: rest => if String.eqb k key then Some v else dict_get key rest
  end.

(** [key in d]. *)
Definition dict_mem (A : Type) (key : string) (d : list (string * A)) : bool :=
  match dict_get key d with Some _ => true | None => false end.

(** The exceptions the script can end with.  The constructor records the
    raise site: [ValueError] is the [raise] of [load_single_document],
    [KeyError] a missing dict key in [main], and the remaining ones carry
    what a collaborator (loader, embedding model, storage backend) raised. *)
Inductive Exception : Type :=
| ValueError (msg : string)
| KeyError (key : string)
| LoaderRaised (what : string)
| EmbeddingRaised (what : string)
| BackendRaised (what : string).

(** The loader classes imported from [langchain.document_loaders]. *)
Inductive LoaderClass : Type :=
| CSVLoader
| EverNoteLoader
| PyMuPDFLoader
| TextLoader
| UnstructuredEmailLoader
| UnstructuredEPubLoader
| UnstructuredHTMLLoader
| UnstructuredMarkdownLoader
| UnstructuredODTLoader
| UnstructuredPowerPointLoader
| UnstructuredWordDocumentLoader
| PyPDFLoader.

Definition LoaderArgs : Type := list (string * string).

(** Map file extensions to document loaders and their arguments. *)
Definition LOADER_MAPPING : list (string * (LoaderClass * LoaderArgs)) :=
  [ (".csv", (CSVLoader, []));
    (".doc", (UnstructuredWordDocumentLoader, []));
    (".docx", (UnstructuredWordDocumentLoader, []));
    (".enex", (EverNoteLoader, []));
    (".epub", (UnstructuredEPubLoader, []));
    (".html", (UnstructuredHTMLLoader, []));
    (".md", (UnstructuredMarkdownLoader, []));
    (".odt", (UnstructuredODTLoader, []));
    (".pdf", (PyPDFLoader, []));
    (".ppt", (UnstructuredPowerPointLoader, []));
    (".pptx", (UnstructuredPowerPointLoader, []));
    (".txt", (TextLoader, [("encoding", "utf8")])) ].

Definition chunk_size : nat := 500.
Definition chunk_overlap : nat := 50.
Definition batch_size : nat := 50.

(** ["." + file_path.rsplit(".", 1)[-1].lower()], the first line of
    [load_single_document]. *)
Definition ext_of (file_path : string) : string :=
  ("." ++ PyStr.lower (PyStr.rsplit_last "." file_path))%string.

(** The registry entry [load_single_document] dispatches on, if any:
    [LOADER_MAPPING[ext]] guarded by [ext in LOADER_MAPPING]. *)
Definition registry_entry (file_path : string) : option (LoaderClass * LoaderArgs) :=
  dict_get (ext_of file_path) LOADER_MAPPING.

Definition unsupported_message (ext : string) : string :=
  ("Unsupported file extension '" ++ ext ++ "'")%string.

(** ** The source directory as [glob] sees it *)

(** The tree below [source_dir] is given by the entries (files and
    directories) the recursive walk visits, in visiting order; an entry is the
    list of its path components relative to [source_dir]. *)
Definition Tree : Type := list (list string).

Module Glob.

(** Names starting with a dot are skipped by [*] and by [**]. *)
Definition is_hidden (name : string) : bool := PyStr.startswith "." name.

(** [os.path.join(a, b)] for a relative [b]. *)
Definition path_join (a b : string) : string :=
  if String.eqb a "" then b
  else if PyStr.endswith "/" a then (a ++ b)%string
  else (a ++ "/" ++ b)%string.

Fixpoint join_components (comps : list string) : string :=
  match comps with
  | [] => ""
  | [name] => name
  | dir :: rest => (dir ++ "/" ++ join_components rest)%string
  end.

(** [fnmatch(name, "*" + suffix)] for a [suffix] without wildcard
    characters, on a file system that distinguishes case. *)
Definition name_matches (suffix : string) (comps : list string) : bool :=
  PyStr.endswith suffix (last comps "").

Definition visible (comps : list string) : bool :=
  forallb (fun name => negb (is_hidden name)) comps.

(** [glob.has_magic(s)]: [s] holds one of the characters [*], [?] and [[],
    which make [glob] read it as a pattern. *)
Definition has_magic (s : string) : bool :=
  PyStr.mem_char "*" s || PyStr.mem_char "?" s || PyStr.mem_char "[" s.

(** [glob.glob(os.path.join(source_dir, "**/*" + suffix), recursive=True)]
    for a [source_dir] that [glob] reads literally, that is, without magic
    characters.  The script passes [source_dir] to [glob] unescaped, so a
    directory name with such a character is read as a pattern, and what is
    listed then depends on the directories beside the source directory,
    which a [Tree] does not describe: statements about which entries are
    listed carry [has_magic source_dir = false]. *)
Definition glob (tree : Tree) (source_dir suffix : string) : list string :=
  map (fun comps => path_join source_dir (join_components comps))
      (filter (fun comps => visible comps && name_matches suffix comps) tree).

End Glob.

(** ** Collaborators and the world the script runs in *)

(** What calling the embeddings object, [embeddings("example text")], does. *)
Inductive CallOutcome : Type :=
| CallReturns
| CallRaisesTypeError (msg : string)
| CallRaises (what : string).

Record HuggingFaceEmbeddings : Type := mkEmbeddings {
  model_name : string;
  call_outcome : CallOutcome
}.

(** The embedding function a [Chroma] handle holds: the embeddings object it
    was built with, or the closure [new_embedding_function] around one. *)
Inductive EmbeddingFunction : Type :=
| Embeddings (e : HuggingFaceEmbeddings)
| NewEmbeddingFunction (e : HuggingFaceEmbeddings).

(** A [Chroma] handle.  All handles of one run are opened on the same
    persistent client and the same (default) collection, whose records are
    kept in the world. *)
Record Chroma : Type := mkChroma {
  embedding_function : EmbeddingFunction
}.

(** Calls made to collaborators, in the order the script makes them. *)
Inductive Event : Type :=
| EvProbe
| EvSetEmbeddingFunction
| EvGet
| EvLoad (file_path : string)
| EvSplitDocuments (documents : list Document)
| EvAddDocuments (batch : list Document)
| EvFromDocuments (batch : list Document)
| EvPersist.

Record World : Type := mkWorld {
  files : Tree;                 (* the tree below the source directory *)
  collection : list Document;   (* the records of the stored collection *)
  db : Chroma;                  (* the object bound to [db] in [main] *)
  trace : list Event
}.

(** How a computation ends: it returns, the process exits ([exit(status)]),
    or an exception propagates. *)
Inductive Result (A : Type) : Type :=
| Return (a : A)
| Exit (status : nat)
| Raise (e : Exception).

Arguments Exit {A} status.
Arguments Raise {A} e.

Definition M (A : Type) : Type := World -> Result A * World.

Definition ret (A : Type) (a : A) : M A := fun w => (Return a, w).

Definition bind (A B : Type) (c : M A) (k : A -> M B) : M B :=
  fun w =>
    match c w with
    | (Return a, w') => k a w'
    | (Exit status, w') => (Exit status, w')
    | (Raise e, w') => (Raise e, w')
    end.

Definition exit (A : Type) (status : nat) : M A := fun w => (Exit status, w).
Definition raise (A : Type) (e : Exception) : M A := fun w => (Raise e, w).

Arguments exit {A} status.
Arguments raise {A} e.

Definition gets (A : Type) (f : World -> A) : M A := fun w => (Return (f w), w).

Definition emit (ev : Event) : M unit :=
  fun w => (Return tt,
            mkWorld (files w) (collection w) (db w) (trace w ++ [ev])).

Definition set_db (h : Chroma) : M unit :=
  fun w => (Return tt, mkWorld (files w) (collection w) h (trace w)).

Definition set_collection (records : list Document) : M unit :=
  fun w => (Return tt, mkWorld (files w) records (db w) (trace w)).

Notation "x <- c ;; k" := (bind c (fun x => k))
  (at level 61, c at next level, right associativity).
Notation "c ;; k" := (bind c (fun _ => k))
  (at level 61, right associativity).

(** [for x in xs: body(x)]. *)
Fixpoint for_each (A : Type) (xs : list A) (body : A -> M unit) : M unit :=
  match xs with
  | [] => ret tt
  | x :: rest => body x ;; for_each rest body
  end.

(** ** Slices and [range] *)

(** [range(start, stop, step)] for a positive [step]; [stop - start] rounds
    of the loop are always enough. *)
Fixpoint range_fuel (fuel start stop step : nat) : list nat :=
  match fuel with
  | 0 => []
  | S fuel' =>
      if start <? stop then start :: range_fuel fuel' (start + step) stop step
      else []
  end.

Definition range (start stop step : nat) : list nat :=
  range_fuel (stop - start) start stop step.

(** [xs[i:j]]; Python clamps both ends to the length of the list. *)
Definition slice (A : Type) (i j : nat) (xs : list A) : list A :=
  firstn (j - i) (skipn i xs).

(** The batches the two loops of [main] submit:
    [texts[i:i + batch_size] for i in range(0, len(texts), batch_size)]. *)
Definition batches (A : Type) (size : nat) (texts : list A) : list (list A) :=
  map (fun i => slice i (i + size) texts) (range 0 (length texts) size).

(** [ceil(n / b)]. *)
Definition ceil_div (n b : nat) : nat := (n + b - 1) / b.

(** ** The script *)

(** What [db.get()] returns: the stored texts and their metadata dicts, one
    entry of each per stored record. *)
Record GetResult : Type := mkGetResult {
  documents : list string;
  metadatas : list (list (string * string))
}.

(** [[file_path for file_path in all_files if file_path not in ignored_files]]. *)
Definition filtered_files (all_files ignored_files : list string) : list string :=
  filter (fun file_path => negb (PyStr.mem file_path ignored_files)) all_files.

(** The two [glob] calls made for every key of [LOADER_MAPPING], in order. *)
Definition all_files (tree : Tree) (source_dir : string) : list string :=
  flat_map
    (fun ext =>
       Glob.glob tree source_dir (PyStr.lower ext) ++
       Glob.glob tree source_dir (PyStr.upper ext))
    (map fst LOADER_MAPPING).

(** [[metadata['source'] for metadata in metadatas]]: a dict without the key
    raises [KeyError]. *)
Fixpoint sources_of (metadatas : list (list (string * string))) : M (list string) :=
  match metadatas with
  | [] => ret []
  | metadata :: rest =>
      match dict_get "source" metadata with
      | Some source => sources <- sources_of rest ;; ret (source :: sources)
      | None => raise (KeyError "source")
      end
  end.

Section Pipeline.

(** [loader_class(file_path, **loader_args).load()]: the documents a loader
    extracts from a file, or what it raises. *)
Variable loader_load :
  LoaderClass -> string -> LoaderArgs -> string + list Document.

(** [RecursiveCharacterTextSplitter(chunk_size, chunk_overlap)
    .split_documents(documents)]. *)
Variable split_documents : nat -> nat -> list Document -> list Document.

(** The order in which [pool.imap_unordered] hands back the results of the
    submitted paths. *)
Variable completion_order : list string -> list string.

(** What embedding and writing a batch raises in the backend, if anything. *)
Variable add_texts_raises : list Document -> option string.

(** [SOURCE_DIRECTORY] of the environment. *)
Variable source_directory : string.

Definition load_single_document (file_path : string) : Exception + list Document :=
  let ext := ext_of file_path in
  if dict_mem ext LOADER_MAPPING then
    match dict_get ext LOADER_MAPPING with
    | Some (loader_class, loader_args) =>
        match loader_load loader_class file_path loader_args with
        | inl what => inl (LoaderRaised what)
        | inr docs => inr docs
        end
    | None => inl (KeyError ext)
    end
  else inl (ValueError (unsupported_message ext)).

(** The loop over the results of the pool: [results.extend(docs)] for every
    path, the first exception of a worker ending the run. *)
Fixpoint load_each (paths : list string) : M (list Document) :=
  match paths with
  | [] => ret []
  | file_path :: rest =>
      emit (EvLoad file_path) ;;
      match load_single_document file_path with
      | inl e => raise e
      | inr docs => results <- load_each rest ;; ret (docs ++ results)
      end
  end.

Definition load_documents (source_dir : string) (ignored_files : list string)
  : M (list Document) :=
  tree <- gets files ;;
  load_each (completion_order
               (filtered_files (all_files tree source_dir) ignored_files)).

Definition process_documents (ignored_files : list string) : M (list Document) :=
  docs <- load_documents source_directory ignored_files ;;
  match docs with
  | [] => exit 0
  | _ :: _ =>
      emit (EvSplitDocuments docs) ;;
      ret (split_documents chunk_size chunk_overlap docs)
  end.

(** [db.get()]. *)
Definition db_get : M GetResult :=
  emit EvGet ;;
  records <- gets collection ;;
  ret (mkGetResult (map page_content records) (map metadata records)).

(** [db.set_embedding_function(f)]. *)
Definition set_embedding_function (f : EmbeddingFunction) : M unit :=
  emit EvSetEmbeddingFunction ;;
  set_db (mkChroma f).

(** Embedding the batch and appending it to the collection. *)
Definition add_texts (batch : list Document) : M unit :=
  match add_texts_raises batch with
  | Some what => raise (BackendRaised what)
  | None =>
      records <- gets collection ;;
      set_collection (records ++ batch)
  end.

(** [db.add_documents(batch)]. *)
Definition add_documents (batch : list Document) : M unit :=
  emit (EvAddDocuments batch) ;;
  add_texts batch.

(** [Chroma.from_documents(batch, embeddings, ..., client=chroma_client)]:
    a new handle on the client's collection (got or created), to which the
    batch is added. *)
Definition from_documents (batch : list Document) (embeddings : HuggingFaceEmbeddings)
  : M Chroma :=
  emit (EvFromDocuments batch) ;;
  add_texts batch ;;
  ret (mkChroma (Embeddings embeddings)).

(** [db.persist()]. *)
Definition persist : M unit := emit EvPersist.

Definition does_vectorstore_exist (embeddings : HuggingFaceEmbeddings) : M bool :=
  emit EvProbe ;;
  match call_outcome embeddings with
  | CallReturns => ret tt
  | CallRaisesTypeError msg =>
      if PyStr.contains "got an unexpected keyword argument" msg
      then set_embedding_function (NewEmbeddingFunction embeddings)
      else ret tt
  | CallRaises what => raise (EmbeddingRaised what)
  end ;;
  got <- db_get ;;
  match documents got with
  | [] => ret false
  | _ :: _ => ret true
  end.

(** The [if] branch of [main]: append to the existing vectorstore. *)
Definition append_to_existing : M unit :=
  got <- db_get ;;
  sources <- sources_of (metadatas got) ;;
  texts <- process_documents sources ;;
  for_each (batches batch_size texts) add_documents.

(** The [else] branch of [main]: create the vectorstore. *)
Definition create_new (embeddings : HuggingFaceEmbeddings) : M unit :=
  texts <- process_documents [] ;;
  for_each (batches batch_size texts)
    (fun batch_texts =>
       h <- from_documents batch_texts embeddings ;;
       set_db h).

Definition main (embeddings : HuggingFaceEmbeddings) : M unit :=
  set_db (mkChroma (Embeddings embeddings)) ;;
  vectorstore_exists <- does_vectorstore_exist embeddings ;;
  (if vectorstore_exists then append_to_existing else create_new embeddings) ;;
  persist.

End Pipeline.

(** ** Vocabulary of the statements *)

(** The [source] values of the stored metadata dicts, when each has one: what
    [sources_of] returns without its effects. *)
Fixpoint stored_sources (metadatas : list (list (string * string)))
  : option (list string) :=
  match metadatas with
  | [] => Some []
  | metadata :: rest =>
      match dict_get "source" metadata, stored_sources rest with
      | Some source, Some sources => Some (source :: sources)
      | _, _ => None
      end
  end.

(** The calls of the existence check and of the listing of stored sources:
    they read the collection or configure the handle, and store nothing. *)
Definition is_index_query (ev : Event) : bool :=
  match ev with
  | EvProbe | EvSetEmbeddingFunction | EvGet => true
  | _ => false
  end.

(** The calls that submit a batch for storage. *)
Definition is_submission (ev : Event) : bool :=
  match ev with
  | EvAddDocuments _ | EvFromDocuments _ => true
  | _ => false
  end.

(** The submission protocol in the words of the specification: the index is
    created from the first batch, every later batch is appended to it. *)
Definition create_then_append (bs : list (list Document)) : list Event :=
  match bs with
  | [] => []
  | first :: later => EvFromDocuments first :: map EvAddDocuments later
  end.

(** The events a world has seen after a given length of trace. *)
Definition events_since (before : World) (after : World) : list Event :=
  skipn (length (trace before)) (trace after).

(** The probe raises the [TypeError] that [does_vectorstore_exist] adapts to. *)
Definition keyword_mismatch (embeddings : HuggingFaceEmbeddings) : bool :=
  match call_outcome embeddings with
  | CallRaisesTypeError msg =>
      PyStr.contains "got an unexpected keyword argument" msg
  | _ => false
  end.

(** The calls the existence check makes when the probe does not abort it. *)
Definition probe_events (embeddings : HuggingFaceEmbeddings) : list Event :=
  EvProbe ::
  (if keyword_mismatch embeddings then [EvSetEmbeddingFunction] else []) ++
  [EvGet].

(** ** Sample collaborators and worlds *)

Module Sample.

Definition embeddings_ok : HuggingFaceEmbeddings :=
  mkEmbeddings "all-MiniLM-L6-v2" CallReturns.

Definition embeddings_kw : HuggingFaceEmbeddings :=
  mkEmbeddings "all-MiniLM-L6-v2"
    (CallRaisesTypeError "__call__() got an unexpected keyword argument 'input'").

Definition embeddings_not_callable : HuggingFaceEmbeddings :=
  mkEmbeddings "all-MiniLM-L6-v2"
    (CallRaisesTypeError "'HuggingFaceEmbeddings' object is not callable").

(** A loader that finds under each path the listed texts (the pages of a
    PDF, the one text of a text file) and records the path it was given as
    [source]. *)
Definition read_pages (contents : list (string * list string))
  : LoaderClass -> string -> LoaderArgs -> string + list Document :=
  fun _ file_path _ =>
    match dict_get file_path contents with
    | Some pages =>
        inr (map (fun text => mkDocument text [("source", file_path)]) pages)
    | None => inl "No such file"
    end.

(** A loader that finds one text under every path. *)
Definition one_text : LoaderClass -> string -> LoaderArgs -> string + list Document :=
  fun _ file_path _ => inr [mkDocument "text" [("source", file_path)]].

(** A splitter on short texts: a text that fits in one chunk is its own
    chunk, and an empty text yields no chunk. *)
Definition short_texts (size overlap : nat) (docs : list Document) : list Document :=
  filter (fun d => negb (String.eqb (page_content d) "")) docs.

(** A splitter that keeps every document as one chunk. *)
Definition whole_documents (size overlap : nat) (docs : list Document) : list Document :=
  docs.

Definition in_order (paths : list string) : list string := paths.

Definition never_raises (batch : list Document) : option string := None.

Definition world_of (tree : Tree) (records : list Document) : World :=
  mkWorld tree records (mkChroma (Embeddings embeddings_ok)) [].

Definition page (n : nat) : string := "page".

(** A PDF of 51 pages. *)
Definition long_pdf : list (string * list string) :=
  [("source_documents/long.pdf", map page (seq 0 51))].

(** An empty text file. *)
Definition empty_txt : list (string * list string) :=
  [("source_documents/empty.txt", [""])].

(** The documents read from the PDF, one per page; each is one chunk. *)
Definition long_pdf_texts : list Document :=
map (fun text => mkDocument text [("source", "source_documents/long.pdf")])
    (map page (seq 0 51)).

(** A record stored by an earlier run for [source_documents/a.txt]. *)
Definition stored_a_txt : Document :=
mkDocument "text" [("source", "source_documents/a.txt")].

(** The script over the long PDF, cut into one chunk per page. *)
Definition pdf_process_documents : list string -> M (list Document) :=
process_documents (read_pages long_pdf) whole_documents in_order
  "source_documents".

Definition pdf_create_new : HuggingFaceEmbeddings -> M unit :=
create_new (read_pages long_pdf) whole_documents in_order never_raises
  "source_documents".

Definition pdf_main : HuggingFaceEmbeddings -> M unit :=
main (read_pages long_pdf) whole_documents in_order never_raises
  "source_documents".

(** The script over the empty text file. *)
Definition empty_txt_main : HuggingFaceEmbeddings -> M unit :=
main (read_pages empty_txt) short_texts in_order never_raises
  "source_documents".

(** The script over files of one text each. *)
Definition one_text_process_documents : list string -> M (list Document) :=
process_documents one_text whole_documents in_order "source_documents".

Definition one_text_main : HuggingFaceEmbeddings -> M unit :=
main one_text whole_documents in_order never_raises "source_documents".

End Sample.

(** ** Vocabulary of the further statements *)

(** The name of the file a path leads to: what follows the last slash. *)
Definition basename (file_path : string) : string :=
  PyStr.rsplit_last "/" file_path.

(** The extension of a file in the sense of the specification: the last dot
    of the file's name and what follows it; a name without a dot has none. *)
Definition file_extension (file_path : string) : option string :=
  let name := basename file_path in
  if PyStr.mem_char "." name
  then Some ("." ++ PyStr.rsplit_last "." name)%string
  else None.

(** The suffixes the scan globs for, in the order of the [glob] calls. *)
Definition scan_suffixes : list string :=
  flat_map (fun ext => [PyStr.lower ext; PyStr.upper ext]) (map fst LOADER_MAPPING).

(** An entry the scan lists: no hidden component, and a name ending in one
    of the suffixes. *)
Definition is_scanned (comps : list string) : bool :=
  Glob.visible comps
  && existsb (fun suffix => Glob.name_matches suffix comps) scan_suffixes.

(** The path [glob] returns for an entry. *)
Definition rendered (source_dir : string) (comps : list string) : string :=
  Glob.path_join source_dir (Glob.join_components comps).

(** What one entry contributes to the [glob] for one suffix, and the whole
    [glob] for one suffix, for any way of matching and of rendering. *)
Definition entry_hit (render : list string -> string)
    (matches : string -> list string -> bool)
    (c : list string) (s : string) : list string :=
  if Glob.visible c && matches s c then [render c] else [].

Definition suffix_listing (render : list string -> string)
    (matches : string -> list string -> bool)
    (tree : Tree) (s : string) : list string :=
  map render (filter (fun c => Glob.visible c && matches s c) tree).

(** The documents a path contributes when its load succeeds. *)
Definition docs_of
    (loader_load : LoaderClass -> string -> LoaderArgs -> string + list Document)
    (file_path : string) : list Document :=
  match load_single_document loader_load file_path with
  | inr docs => docs
  | inl _ => []
  end.

(** The calls that only read: the existence check, the listing of stored
    sources and the loading of files. *)
Definition is_read (ev : Event) : bool :=
  match ev with
  | EvProbe | EvSetEmbeddingFunction | EvGet | EvLoad _ => true
  | _ => false
  end.

(** From [w] to [w'] the source tree is the same, the stored records are
    kept in place with more records after them, and the calls made in
    between all satisfy [P]. *)
Definition grows_by (P : Event -> Prop) (w w' : World) : Prop :=
  files w' = files w
  /\ (exists added, collection w' = collection w ++ added)
  /\ exists evs, trace w' = trace w ++ evs /\ Forall P evs.

(** The world in which [append_to_existing] starts processing: after its
    [db.get()]. *)
Definition after_get (w : World) : World :=
  mkWorld (files w) (collection w) (db w) (trace w ++ [EvGet]).

Module MoreSamples.

(** An embeddings object whose call fails outright. *)
Definition embeddings_broken : HuggingFaceEmbeddings :=
  mkEmbeddings "all-MiniLM-L6-v2" (CallRaises "model file not found").

(** A record stored without a [source] key. *)
Definition stored_without_source : Document :=
  mkDocument "text" [("page", "1")].

(** A backend that rejects every batch shorter than the batch size. *)
Definition rejects_short (batch : list Document) : option string :=
  if length batch <? batch_size then Some "embedding failed" else None.

(** A pool that hands the results back in reverse order. *)
Definition reversed (paths : list string) : list string := rev paths.

Definition pdf_append_to_existing : M unit :=
  append_to_existing (Sample.read_pages Sample.long_pdf) Sample.whole_documents
    Sample.in_order Sample.never_raises "source_documents".

Definition pdf_append_rejecting : M unit :=
  append_to_existing (Sample.read_pages Sample.long_pdf) Sample.whole_documents
    Sample.in_order rejects_short "source_documents".

(** A store that already holds [source_documents/a.txt], beside the long
    PDF in the source directory. *)
Definition pdf_beside_stored : World :=
  Sample.world_of [["long.pdf"]] [Sample.stored_a_txt].

Definition pdf_process_after_get : Result (list Document) * World :=
  process_documents (Sample.read_pages Sample.long_pdf) Sample.whole_documents
    Sample.in_order "source_documents" ["source_documents/a.txt"]
    (after_get pdf_beside_stored).

(** Two text files, the first of them already stored. *)
Definition two_files_one_stored : World :=
  Sample.world_of [["a.txt"]; ["b.txt"]] [Sample.stored_a_txt].

(** A text file with some text in it. *)
Definition hello_txt : list (string * list string) :=
  [("source_documents/hello.txt", ["hello"])].

Definition stored_hello_txt : Document :=
  mkDocument "hello" [("source", "source_documents/hello.txt")].

(** The script over that file, with the splitter that drops empty texts. *)
Definition hello_main : HuggingFaceEmbeddings -> M unit :=
  main (Sample.read_pages hello_txt) Sample.short_texts Sample.in_order
    Sample.never_raises "source_documents".

End MoreSamples.

(** * Properties *)

(** ** Strings *)

Lemma lower_char_dot (c : ascii) :
  Ascii.eqb (PyStr.lower_char c) "." = Ascii.eqb c ".".
Proof.
  destruct c as [[] [] [] [] [] [] [] []]; reflexivity.
Qed.

Lemma lower_char_idem (c : ascii) :
  PyStr.lower_char (PyStr.lower_char c) = PyStr.lower_char c.
Proof.
  destruct c as [[] [] [] [] [] [] [] []]; reflexivity.
Qed.

Lemma lower_idem (s : string) : PyStr.lower (PyStr.lower s) = PyStr.lower s.
Proof.
  induction s as [|c s IH]; simpl; [reflexivity|].
  unfold PyStr.lower in *. simpl. now rewrite lower_char_idem, IH.
Qed.

Lemma lower_append (a b : string) :
  PyStr.lower (a ++ b)%string = (PyStr.lower a ++ PyStr.lower b)%string.
Proof.
  unfold PyStr.lower. induction a as [|c a IH]; simpl; [reflexivity|].
  now rewrite IH.
Qed.

Lemma mem_char_lower (s : string) :
  PyStr.mem_char "." (PyStr.lower s) = PyStr.mem_char "." s.
Proof.
  unfold PyStr.lower. induction s as [|c s IH]; simpl; [reflexivity|].
  now rewrite lower_char_dot, IH.
Qed.

Lemma rsplit_last_lower (s : string) :
  PyStr.rsplit_last "." (PyStr.lower s) = PyStr.lower (PyStr.rsplit_last "." s).
Proof.
  induction s as [|c s IH]; [reflexivity|].
  change (PyStr.lower (String c s))
    with (String (PyStr.lower_char c) (PyStr.lower s)).
  cbn [PyStr.rsplit_last].
  rewrite mem_char_lower, lower_char_dot.
  destruct (PyStr.mem_char "." s); [exact IH|].
  destruct (Ascii.eqb c "."); reflexivity.
Qed.

Lemma mem_char_append (c : ascii) (a b : string) :
  PyStr.mem_char c (a ++ b)%string = PyStr.mem_char c a || PyStr.mem_char c b.
Proof.
  induction a as [|d a IH]; simpl; [reflexivity|].
  now rewrite IH, orb_assoc.
Qed.

Lemma rsplit_last_append (stem rest : string) :
  PyStr.rsplit_last "." (stem ++ String "." rest)%string
  = PyStr.rsplit_last "." (String "." rest).
Proof.
  induction stem as [|c stem IH]; [reflexivity|].
  cbn [String.append PyStr.rsplit_last].
  rewrite mem_char_append. cbn [PyStr.mem_char].
  rewrite Ascii.eqb_refl, orb_true_r. simpl orb.
  exact IH.
Qed.

Lemma ext_of_lower_suffix (stem e : string) :
  ext_of (stem ++ "." ++ PyStr.lower e)%string = ext_of (stem ++ "." ++ e)%string.
Proof.
  unfold ext_of. f_equal.
  change ("." ++ PyStr.lower e)%string with (String "." (PyStr.lower e)).
  change ("." ++ e)%string with (String "." e).
  rewrite !rsplit_last_append.
  change (String "." (PyStr.lower e)) with (PyStr.lower (String "." e)).
  now rewrite rsplit_last_lower, lower_idem.
Qed.

(** ** The registry *)

Lemma dict_get_none_iff (A : Type) (key : string) (d : list (string * A)) :
  dict_get key d = None <-> ~ In key (map fst d).
Proof.
  induction d as [|[k v] d IH]; simpl.
  - split; [intros _ []|reflexivity].
  - destruct (String.eqb_spec k key) as [->|Hne].
    + split; [discriminate|]. intros H. exfalso. apply H. now left.
    + rewrite IH. split.
      * intros H [E|Hin]; [now apply Hne|now apply H].
      * intros H Hin. apply H. now right.
Qed.

Lemma dict_mem_get (A : Type) (key : string) (d : list (string * A)) :
  dict_mem key d = match dict_get key d with Some _ => true | None => false end.
Proof. reflexivity. Qed.

(** [load_single_document] in terms of the entry it looks up. *)
Lemma load_single_document_by_entry
    (loader_load : LoaderClass -> string -> LoaderArgs -> string + list Document)
    (file_path : string) :
  load_single_document loader_load file_path =
    match registry_entry file_path with
    | Some (loader_class, loader_args) =>
        match loader_load loader_class file_path loader_args with
        | inl what => inl (LoaderRaised what)
        | inr docs => inr docs
        end
    | None => inl (ValueError (unsupported_message (ext_of file_path)))
    end.
Proof.
  unfold load_single_document, registry_entry. rewrite dict_mem_get.
  destruct (dict_get (ext_of file_path) LOADER_MAPPING) as [[cls args]|];
    reflexivity.
Qed.

(** C4, at paths without a dot.  A file named [pdf] or [TXT] has no
    extension, so its extension is no key of [LOADER_MAPPING]; yet
    [rsplit(".", 1)[-1]] returns the whole of a path without a dot, and
    [load_single_document] hands the file to the PDF loader, respectively the
    text loader, instead of raising its [ValueError]. *)
Theorem load_single_document_dispatches_dotless_path
    (loader_load : LoaderClass -> string -> LoaderArgs -> string + list Document) :
  file_extension "pdf" = None
  /\ file_extension "TXT" = None
  /\ load_single_document loader_load "pdf"
     = match loader_load PyPDFLoader "pdf" [] with
       | inl what => inl (LoaderRaised what)
       | inr docs => inr docs
       end
  /\ load_single_document loader_load "TXT"
     = match loader_load TextLoader "TXT" [("encoding", "utf8")] with
       | inl what => inl (LoaderRaised what)
       | inr docs => inr docs
       end
  /\ (forall msg, load_single_document loader_load "pdf" <> inl (ValueError msg))
  /\ (forall msg, load_single_document loader_load "TXT" <> inl (ValueError msg)).
Proof.
  assert (Hpdf : load_single_document loader_load "pdf"
     = match loader_load PyPDFLoader "pdf" [] with
       | inl what => inl (LoaderRaised what)
       | inr docs => inr docs
       end) by (rewrite load_single_document_by_entry; reflexivity).
  assert (Htxt : load_single_document loader_load "TXT"
     = match loader_load TextLoader "TXT" [("encoding", "utf8")] with
       | inl what => inl (LoaderRaised what)
       | inr docs => inr docs
       end) by (rewrite load_single_document_by_entry; reflexivity).
  split; [reflexivity|]. split; [reflexivity|].
  split; [exact Hpdf|]. split; [exact Htxt|]. split; intros msg.
  - rewrite Hpdf. destruct (loader_load PyPDFLoader "pdf" []); discriminate.
  - rewrite Htxt.
    destruct (loader_load TextLoader "TXT" [("encoding", "utf8")]); discriminate.
Qed.

(** C9. Dispatch does not depend on the case of the extension: a path and
    the same path with its extension lowercased resolve to the same registry
    entry (loader class and arguments), as [.PDF] and [.pdf] do. *)
Theorem registry_entry_case_insensitive (stem e : string) :
  registry_entry (stem ++ "." ++ e)%string
    = registry_entry (stem ++ "." ++ PyStr.lower e)%string
  /\ registry_entry "report.PDF" = Some (PyPDFLoader, [])
  /\ registry_entry "report.pdf" = Some (PyPDFLoader, []).
Proof.
  split; [|split; reflexivity].
  unfold registry_entry. now rewrite ext_of_lower_suffix.
Qed.

(** ** The exclusion list *)

Lemma mem_In (x : string) (xs : list string) :
  PyStr.mem x xs = true <-> In x xs.
Proof.
  unfold PyStr.mem. rewrite existsb_exists. split.
  - intros [y [Hin Heq]]. apply String.eqb_eq in Heq. now subst.
  - intros Hin. exists x. split; [exact Hin|apply String.eqb_refl].
Qed.

Lemma mem_false_iff (x : string) (xs : list string) :
  PyStr.mem x xs = false <-> ~ In x xs.
Proof.
  rewrite <- mem_In. destruct (PyStr.mem x xs); split; intros H;
    try reflexivity; try discriminate; try (intros E; discriminate).
  exfalso. now apply H.
Qed.

Lemma filtered_files_In (all ignored : list string) (p : string) :
  In p (filtered_files all ignored) <-> In p all /\ ~ In p ignored.
Proof.
  unfold filtered_files. rewrite filter_In, negb_true_iff, mem_false_iff.
  reflexivity.
Qed.

(** C3. The scan keeps an enumerated path exactly when no member of the
    exclusion list is equal to it as a string, and so removes it exactly when
    some member is; nothing is normalised, so a path stored in another form
    ([./source_documents/a.txt] for [source_documents/a.txt]) is kept. *)
Theorem exclusion_is_literal (all ignored : list string) (p : string) :
  (In p (filtered_files all ignored) <-> In p all /\ ~ In p ignored)
  /\ (In p all /\ ~ In p (filtered_files all ignored) <-> In p all /\ In p ignored)
  /\ filtered_files ["source_documents/a.txt"] ["./source_documents/a.txt"]
     = ["source_documents/a.txt"].
Proof.
  split; [apply filtered_files_In|]. split; [|reflexivity].
  rewrite filtered_files_In. split.
  - intros [Hall Hnot]. split; [exact Hall|].
    destruct (in_dec string_dec p ignored) as [Hin|Hout]; [exact Hin|].
    exfalso. apply Hnot. now split.
  - intros [Hall Hin]. split; [exact Hall|]. intros [_ Hout]. now apply Hout.
Qed.

(** ** The existence check *)

(** C7. Whenever calling the embeddings object returns or raises a
    [TypeError], [does_vectorstore_exist] returns, and it returns [True]
    exactly when the collection holds at least one record; its only other
    outcome is the exception of the probe call itself. *)
Theorem does_vectorstore_exist_iff_records
    (embeddings : HuggingFaceEmbeddings) (w : World) :
  match fst (does_vectorstore_exist embeddings w) with
  | Return b => b = true <-> collection w <> []
  | Exit _ => False
  | Raise e =>
      exists what,
        call_outcome embeddings = CallRaises what /\ e = EmbeddingRaised what
  end.
Proof.
  unfold does_vectorstore_exist, db_get, set_embedding_function, bind, emit,
    gets, ret, raise, set_db.
  destruct (call_outcome embeddings) as [|msg|what]; cbn.
  - destruct (collection w); cbn; split; congruence.
  - destruct (PyStr.contains _ msg); cbn;
      destruct (collection w); cbn; split; congruence.
  - exists what. now split.
Qed.

(** C10. The check is not free of side effects: when the probe raises the
    keyword-argument [TypeError] the check returns after replacing the
    embedding function of [db] by the closure [new_embedding_function]; in
    every other case [db] is as before.  The stored records and the source
    tree are never touched. *)
Theorem does_vectorstore_exist_frame
    (embeddings : HuggingFaceEmbeddings) (w : World) :
  let w' := snd (does_vectorstore_exist embeddings w) in
  (if keyword_mismatch embeddings
   then db w' = mkChroma (NewEmbeddingFunction embeddings)
        /\ (exists b, fst (does_vectorstore_exist embeddings w) = Return b)
        /\ In EvSetEmbeddingFunction (trace w')
   else db w' = db w)
  /\ collection w' = collection w
  /\ files w' = files w.
Proof.
  unfold keyword_mismatch, does_vectorstore_exist, db_get,
    set_embedding_function, bind, emit, gets, ret, raise, set_db.
  destruct (call_outcome embeddings) as [|msg|what]; cbn.
  - destruct (collection w); cbn; auto.
  - destruct (PyStr.contains _ msg); cbn;
      destruct (collection w); cbn; repeat split; eauto;
      repeat (rewrite in_app_iff); simpl; tauto.
  - auto.
Qed.

(** ** Batching *)

Section Batching.

Variable A : Type.
Variable size : nat.
Hypothesis size_pos : 0 < size.

Lemma range_fuel_length (stop fuel start : nat) :
  stop - start <= fuel ->
  length (range_fuel fuel start stop size) = ceil_div (stop - start) size.
Proof.
  revert start. induction fuel as [|fuel IH]; intros start Hfuel.
  - replace (stop - start) with 0 by lia. unfold ceil_div. simpl.
    symmetry. apply Nat.div_small. lia.
  - cbn [range_fuel]. destruct (Nat.ltb_spec start stop) as [Hlt|Hge].
    + cbn [length]. rewrite IH by lia. unfold ceil_div.
      destruct (Nat.le_gt_cases size (stop - start)) as [Hbig|Hsmall].
      * replace (stop - start + size - 1)
          with ((stop - (start + size) + size - 1) + 1 * size) by lia.
        rewrite Nat.div_add by lia. lia.
      * replace (stop - (start + size)) with 0 by lia.
        rewrite (Nat.div_small (0 + size - 1)) by lia.
        simpl. apply (Nat.div_unique _ _ 1 (stop - start - 1)); lia.
    + replace (stop - start) with 0 by lia. unfold ceil_div. simpl.
      symmetry. apply Nat.div_small. lia.
Qed.

Lemma range_fuel_concat (texts : list A) (fuel start : nat) :
  length texts - start <= fuel ->
  concat (map (fun i => slice i (i + size) texts)
              (range_fuel fuel start (length texts) size))
  = skipn start texts.
Proof.
  revert start. induction fuel as [|fuel IH]; intros start Hfuel.
  - cbn. symmetry. apply skipn_all2. lia.
  - cbn [range_fuel]. destruct (Nat.ltb_spec start (length texts)) as [Hlt|Hge].
    + cbn [map concat]. rewrite IH by lia. unfold slice.
      replace (start + size - start) with size by lia.
      replace (start + size) with (size + start) by lia.
      rewrite <- skipn_skipn. apply firstn_skipn.
    + cbn. symmetry. apply skipn_all2. lia.
Qed.

Lemma slice_length_le (texts : list A) (i : nat) :
  length (slice i (i + size) texts) <= size.
Proof.
  unfold slice. replace (i + size - i) with size by lia.
  apply firstn_le_length.
Qed.

Lemma batches_spec (texts : list A) :
  length (batches size texts) = ceil_div (length texts) size
  /\ Forall (fun batch => length batch <= size) (batches size texts)
  /\ concat (batches size texts) = texts.
Proof.
  unfold batches, range. repeat split.
  - rewrite length_map, range_fuel_length by lia. f_equal. lia.
  - apply Forall_forall. intros batch Hin.
    apply in_map_iff in Hin as [i [<- _]]. apply slice_length_le.
  - rewrite range_fuel_concat by lia. reflexivity.
Qed.

End Batching.

Lemma batches_concat (texts : list Document) :
  concat (batches batch_size texts) = texts.
Proof.
  apply batches_spec. unfold batch_size. lia.
Qed.

(** C6. With the batch size 50 of [main], a chunk sequence of length N is
    cut into exactly ceil(N/50) batches of at most 50 chunks each, and the
    batches put together in the order of submission give back the sequence. *)
Theorem batches_partition (texts : list Document) :
  length (batches batch_size texts) = ceil_div (length texts) batch_size
  /\ Forall (fun batch => length batch <= batch_size) (batches batch_size texts)
  /\ concat (batches batch_size texts) = texts.
Proof.
  apply batches_spec. unfold batch_size. lia.
Qed.

Lemma ceil_div_least (n b : nat) :
  0 < b -> n <= ceil_div n b * b /\ ceil_div n b * b < n + b.
Proof.
  intros Hb. unfold ceil_div.
  pose proof (Nat.div_mod_eq (n + b - 1) b) as Hdiv.
  pose proof (Nat.mod_upper_bound (n + b - 1) b) as Hmod.
  split; nia.
Qed.

(** ** The scan *)

Lemma all_files_In (tree : Tree) (source_dir p : string) :
  In p (all_files tree source_dir) <->
  exists ext comps,
    In ext (map fst LOADER_MAPPING)
    /\ In comps tree
    /\ Glob.visible comps = true
    /\ (Glob.name_matches (PyStr.lower ext) comps = true
        \/ Glob.name_matches (PyStr.upper ext) comps = true)
    /\ p = Glob.path_join source_dir (Glob.join_components comps).
Proof.
  unfold all_files, Glob.glob. rewrite in_flat_map. split.
  - intros [ext [Hext Hin]]. exists ext.
    apply in_app_or in Hin as [Hin|Hin];
      apply in_map_iff in Hin as [comps [<- Hf]];
      apply filter_In in Hf as [Htree Hok];
      apply andb_true_iff in Hok as [Hvis Hmatch];
      exists comps; repeat split; auto.
  - intros [ext [comps [Hext [Htree [Hvis [[Hm|Hm] ->]]]]]];
      exists ext; (split; [exact Hext|]); apply in_or_app; [left|right];
      apply in_map_iff; exists comps; (split; [reflexivity|]);
      apply filter_In; (split; [exact Htree|]);
      now rewrite Hvis, Hm.
Qed.

(** C2, at a file with a mixed-case extension.  [Report.Pdf] lies in the
    source directory and [load_single_document] would hand it to the PDF
    loader, yet the scan returns neither it nor anything else; its lowercase
    and uppercase spellings are both found. *)
Theorem scan_misses_mixed_case :
  all_files [["Report.Pdf"]] "source_documents" = []
  /\ registry_entry "source_documents/Report.Pdf" = Some (PyPDFLoader, [])
  /\ In (ext_of "source_documents/Report.Pdf") (map fst LOADER_MAPPING)
  /\ all_files [["report.pdf"]; ["REPORT.PDF"]] "source_documents"
     = ["source_documents/report.pdf"; "source_documents/REPORT.PDF"].
Proof.
  repeat split; try reflexivity. vm_compute. tauto.
Qed.

(** ** Running the driver *)

Lemma stored_sources_run (ms : list (list (string * string))) (w : World) :
  sources_of ms w =
    match stored_sources ms with
    | Some sources => (Return sources, w)
    | None => (Raise (KeyError "source"), w)
    end.
Proof.
  induction ms as [|m ms IH]; [reflexivity|].
  cbn [sources_of stored_sources].
  destruct (dict_get "source" m) as [source|]; [|now destruct (stored_sources ms)].
  unfold bind. rewrite IH. now destruct (stored_sources ms).
Qed.

Section Runs.

Variable loader_load :
  LoaderClass -> string -> LoaderArgs -> string + list Document.
Variable split_documents : nat -> nat -> list Document -> list Document.
Variable completion_order : list string -> list string.
Variable add_texts_raises : list Document -> option string.
Variable source_directory : string.

Local Abbreviation load_each := (load_each loader_load).
Local Abbreviation load_documents := (load_documents loader_load completion_order).
Local Abbreviation process_documents :=
  (process_documents loader_load split_documents completion_order
     source_directory).
Local Abbreviation add_documents := (add_documents add_texts_raises).
Local Abbreviation from_documents := (from_documents add_texts_raises).
Local Abbreviation append_to_existing :=
  (append_to_existing loader_load split_documents completion_order
     add_texts_raises source_directory).
Local Abbreviation create_new :=
  (create_new loader_load split_documents completion_order
     add_texts_raises source_directory).
Local Abbreviation main :=
  (main loader_load split_documents completion_order add_texts_raises
     source_directory).

(** The loop of the [else] branch, when the backend accepts every batch. *)
Lemma create_loop_run (embeddings : HuggingFaceEmbeddings)
    (bs : list (list Document)) (w : World) :
  (forall b, In b bs -> add_texts_raises b = None) ->
  for_each bs (fun batch_texts =>
                 h <- from_documents batch_texts embeddings ;; set_db h) w
  = (Return tt,
     mkWorld (files w) (collection w ++ concat bs)
       (match bs with [] => db w | _ :: _ => mkChroma (Embeddings embeddings) end)
       (trace w ++ map EvFromDocuments bs)).
Proof.
  revert w. induction bs as [|b bs IH]; intros w Hok.
  - cbn. rewrite !app_nil_r. now destruct w.
  - cbn [for_each]. unfold bind at 1.
    unfold from_documents, add_texts, bind, emit, gets, set_collection,
      set_db, ret. rewrite (Hok b (or_introl eq_refl)). cbn.
    rewrite IH by (intros b' Hb'; apply Hok; now right). cbn.
    rewrite <- !app_assoc. cbn. destruct bs; reflexivity.
Qed.

(** The loop of the [if] branch, when the backend accepts every batch. *)
Lemma append_loop_run (bs : list (list Document)) (w : World) :
  (forall b, In b bs -> add_texts_raises b = None) ->
  for_each bs add_documents w
  = (Return tt,
     mkWorld (files w) (collection w ++ concat bs) (db w)
       (trace w ++ map EvAddDocuments bs)).
Proof.
  revert w. induction bs as [|b bs IH]; intros w Hok.
  - cbn. rewrite !app_nil_r. now destruct w.
  - cbn [for_each]. unfold bind at 1.
    unfold add_documents, add_texts, bind, emit, gets, set_collection, ret.
    rewrite (Hok b (or_introl eq_refl)). cbn.
    rewrite IH by (intros b' Hb'; apply Hok; now right). cbn.
    rewrite <- !app_assoc. reflexivity.
Qed.

(** C1, as the code has it.  In the [else] branch every batch of the chunk
    sequence, the first and every later one, is submitted through
    [Chroma.from_documents], in order, and [db] is rebound to the handle of
    the last call; [add_documents] is not used.  When the backend accepts
    every batch the collection ends up extended by the whole sequence. *)
Theorem create_new_submits_every_batch_by_from_documents
    (embeddings : HuggingFaceEmbeddings) (w w1 : World) (texts : list Document) :
  process_documents [] w = (Return texts, w1) ->
  (forall b, In b (batches batch_size texts) -> add_texts_raises b = None) ->
  exists w2,
    create_new embeddings w = (Return tt, w2)
    /\ trace w2 = trace w1 ++ map EvFromDocuments (batches batch_size texts)
    /\ collection w2 = collection w1 ++ texts
    /\ db w2 = match texts with
               | [] => db w1
               | _ :: _ => mkChroma (Embeddings embeddings)
               end
    /\ files w2 = files w1.
Proof.
  intros Hproc Hok. unfold create_new. unfold bind at 1. rewrite Hproc.
  rewrite create_loop_run by exact Hok.
  eexists. split; [reflexivity|]. cbn.
  pose proof (batches_concat texts) as Hcat.
  rewrite Hcat. repeat split.
  destruct texts as [|t texts]; [reflexivity|].
  destruct (batches batch_size (t :: texts)) eqn:Hb; [|reflexivity].
  discriminate Hcat.
Qed.

(** *** The existence check and the load loop as equations *)

Lemma does_vectorstore_exist_run (embeddings : HuggingFaceEmbeddings) (w : World) :
  (forall what, call_outcome embeddings <> CallRaises what) ->
  does_vectorstore_exist embeddings w
  = (Return (match collection w with [] => false | _ :: _ => true end),
     mkWorld (files w) (collection w)
       (if keyword_mismatch embeddings
        then mkChroma (NewEmbeddingFunction embeddings) else db w)
       (trace w ++ probe_events embeddings)).
Proof.
  intros Hcall.
  unfold does_vectorstore_exist, probe_events, keyword_mismatch, db_get,
    set_embedding_function, bind, emit, gets, ret, raise, set_db.
  destruct (call_outcome embeddings) as [|msg|what]; cbn.
  - rewrite <- app_assoc. now destruct (collection w).
  - destruct (PyStr.contains _ msg); cbn; rewrite <- !app_assoc; cbn;
      now destruct (collection w).
  - now destruct (Hcall what).
Qed.

Lemma does_vectorstore_exist_raises (embeddings : HuggingFaceEmbeddings)
    (w : World) (what : string) :
  call_outcome embeddings = CallRaises what ->
  fst (does_vectorstore_exist embeddings w) = Raise (EmbeddingRaised what).
Proof.
  intros Hcall. unfold does_vectorstore_exist, bind, emit, raise.
  now rewrite Hcall.
Qed.

Lemma probe_events_are_queries (embeddings : HuggingFaceEmbeddings) :
  Forall (fun ev => is_index_query ev = true) (probe_events embeddings).
Proof.
  unfold probe_events. destruct (keyword_mismatch embeddings);
    repeat constructor.
Qed.

Lemma events_since_app (w w' : World) (evs : list Event) :
  trace w' = trace w ++ evs -> events_since w w' = evs.
Proof.
  unfold events_since. intros ->.
  rewrite skipn_app, skipn_all, Nat.sub_diag. reflexivity.
Qed.

Lemma load_each_outcome (paths : list string) (w : World) :
  match load_each paths w with
  | (Return docs, w') =>
      w' = mkWorld (files w) (collection w) (db w) (trace w ++ map EvLoad paths)
      /\ (forall p, In p paths ->
            exists loaded,
              load_single_document loader_load p = inr loaded /\ incl loaded docs)
      /\ (forall d, In d docs ->
            exists p loaded,
              In p paths
              /\ load_single_document loader_load p = inr loaded
              /\ In d loaded)
  | (Exit _, _) => False
  | (Raise _, w') => files w' = files w /\ collection w' = collection w
  end.
Proof.
  revert w. induction paths as [|p paths IH]; intros w.
  - cbn. rewrite app_nil_r. destruct w; cbn.
    repeat split; [now intros p []|now intros d []].
  - cbn [load_each]. unfold bind at 1. unfold emit at 1.
    destruct (load_single_document loader_load p) as [e|loaded] eqn:Hload.
    + cbn. now split.
    + unfold bind at 1.
      match goal with |- context [load_each paths ?w0] =>
        specialize (IH w0); destruct (load_each paths w0) as [[docs| |] w1]
      end; cbn in *; [|exact IH|exact IH].
      destruct IH as [-> [Hall Hfrom]]. split; [|split].
      * rewrite <- app_assoc. reflexivity.
      * intros q [<-|Hq].
        -- exists loaded. split; [exact Hload|]. apply incl_appl, incl_refl.
        -- destruct (Hall q Hq) as [lq [Hlq Hincl]]. exists lq.
           split; [exact Hlq|]. now apply incl_appr.
      * intros d Hd. apply in_app_or in Hd as [Hd|Hd].
        -- exists p, loaded. auto.
        -- destruct (Hfrom d Hd) as [q [lq [Hq [Hlq Hdq]]]].
           exists q, lq. auto.
Qed.

Hypothesis completion_permutes :
  forall paths, Permutation (completion_order paths) paths.

Lemma completion_order_nil : completion_order [] = [].
Proof.
  apply Permutation_nil. symmetry. apply completion_permutes.
Qed.

(** With nothing left after the exclusion, [process_documents] exits with
    status 0 and calls no collaborator. *)
Lemma process_documents_nothing_new (ignored : list string) (w : World) :
  filtered_files (all_files (files w) source_directory) ignored = [] ->
  process_documents ignored w = (Exit 0, w).
Proof.
  intros Hnone. unfold process_documents, load_documents, bind, gets.
  rewrite Hnone, completion_order_nil. reflexivity.
Qed.

(** The whole run in that case: the existence check, the listing of stored
    sources when the store exists, and the exit. *)
Lemma main_nothing_new (embeddings : HuggingFaceEmbeddings) (w : World)
    (ignored : list string) :
  (forall what, call_outcome embeddings <> CallRaises what) ->
  stored_sources (map metadata (collection w)) = Some ignored ->
  filtered_files (all_files (files w) source_directory) ignored = [] ->
  exists h evs,
    main embeddings w
    = (Exit 0, mkWorld (files w) (collection w) h (trace w ++ evs))
    /\ Forall (fun ev => is_index_query ev = true) evs.
Proof.
  intros Hcall Hsrc Hnone. unfold main. unfold bind at 1. unfold set_db at 1.
  unfold bind at 1. rewrite does_vectorstore_exist_run by exact Hcall. cbn.
  destruct (collection w) as [|r records] eqn:Hcol.
  - cbn in Hsrc. injection Hsrc as <-.
    unfold bind at 1. unfold create_new. unfold bind at 1.
    rewrite process_documents_nothing_new by exact Hnone.
    eexists. exists (probe_events embeddings). split; [reflexivity|].
    apply probe_events_are_queries.
  - unfold bind at 1. unfold append_to_existing. unfold bind at 1.
    unfold db_get at 1. unfold bind at 1. unfold emit at 1. unfold bind at 1.
    unfold gets at 1. unfold ret at 1. cbn [collection documents metadatas].
    unfold bind at 1. rewrite stored_sources_run, Hsrc.
    unfold bind at 1.
    rewrite process_documents_nothing_new by exact Hnone.
    eexists. exists (probe_events embeddings ++ [EvGet]).
    split; [cbn; now rewrite <- app_assoc|].
    apply Forall_app. split; [apply probe_events_are_queries|].
    repeat constructor.
Qed.

(** C5. When nothing is left after the exclusion, the run ends with exit
    status 0 right after the scan: [process_documents] leaves the world as it
    found it, so the splitter is not called, and [main] has made no call
    other than those of the existence check and of the listing of stored
    sources; no batch is submitted, nothing is persisted, and the collection
    is as before. *)
Theorem no_new_documents_exits_before_chunking
    (embeddings : HuggingFaceEmbeddings) (w : World) (ignored : list string) :
  (forall what, call_outcome embeddings <> CallRaises what) ->
  stored_sources (map metadata (collection w)) = Some ignored ->
  filtered_files (all_files (files w) source_directory) ignored = [] ->
  process_documents ignored w = (Exit 0, w)
  /\ exists w',
       main embeddings w = (Exit 0, w')
       /\ collection w' = collection w
       /\ files w' = files w
       /\ Forall (fun ev => is_index_query ev = true) (events_since w w').
Proof.
  intros Hcall Hsrc Hnone.
  split; [now apply process_documents_nothing_new|].
  destruct (main_nothing_new embeddings w Hcall Hsrc Hnone)
    as [h [evs [Hrun Hq]]].
  eexists. split; [exact Hrun|]. cbn. repeat split.
  erewrite events_since_app; [exact Hq|reflexivity].
Qed.

(** *** Running the pipeline again *)

Lemma stored_sources_app (a b : list (list (string * string))) :
  stored_sources (a ++ b) =
    match stored_sources a, stored_sources b with
    | Some xs, Some ys => Some (xs ++ ys)
    | _, _ => None
    end.
Proof.
  induction a as [|m a IH]; cbn.
  - now destruct (stored_sources b).
  - destruct (dict_get "source" m) as [src|]; [|reflexivity].
    rewrite IH. destruct (stored_sources a), (stored_sources b); reflexivity.
Qed.

Lemma stored_sources_total (ms : list (list (string * string))) :
  (forall m, In m ms -> exists src, dict_get "source" m = Some src) ->
  exists sources, stored_sources ms = Some sources.
Proof.
  induction ms as [|m ms IH]; intros Hall; cbn.
  - now exists [].
  - destruct (Hall m (or_introl eq_refl)) as [src ->].
    destruct IH as [sources ->]; [intros m' Hm'; apply Hall; now right|].
    now eexists.
Qed.

Lemma stored_sources_In (ms : list (list (string * string)))
    (sources : list string) (m : list (string * string)) (src : string) :
  stored_sources ms = Some sources ->
  In m ms -> dict_get "source" m = Some src -> In src sources.
Proof.
  revert sources. induction ms as [|m0 ms IH]; intros sources Hs Hin Hsrc.
  - destruct Hin.
  - cbn in Hs. destruct (dict_get "source" m0) as [src0|] eqn:H0; [|discriminate].
    destruct (stored_sources ms) as [rest|]; [|discriminate].
    injection Hs as <-. destruct Hin as [->|Hin].
    + left. congruence.
    + right. now apply (IH rest).
Qed.

Lemma add_documents_run (b : list Document) (w : World) :
  add_documents b w =
    match add_texts_raises b with
    | Some what =>
        (Raise (BackendRaised what),
         mkWorld (files w) (collection w) (db w) (trace w ++ [EvAddDocuments b]))
    | None =>
        (Return tt,
         mkWorld (files w) (collection w ++ b) (db w)
           (trace w ++ [EvAddDocuments b]))
    end.
Proof.
  unfold add_documents, add_texts, bind, emit, gets, set_collection, raise, ret.
  now destruct (add_texts_raises b).
Qed.

Lemma from_documents_run (embeddings : HuggingFaceEmbeddings)
    (b : list Document) (w : World) :
  (h <- from_documents b embeddings ;; set_db h) w =
    match add_texts_raises b with
    | Some what =>
        (Raise (BackendRaised what),
         mkWorld (files w) (collection w) (db w) (trace w ++ [EvFromDocuments b]))
    | None =>
        (Return tt,
         mkWorld (files w) (collection w ++ b) (mkChroma (Embeddings embeddings))
           (trace w ++ [EvFromDocuments b]))
    end.
Proof.
  unfold from_documents, add_texts, bind, emit, gets, set_collection, set_db,
    raise, ret.
  now destruct (add_texts_raises b).
Qed.

Lemma append_loop_outcome (bs : list (list Document)) (w : World) :
  match for_each bs add_documents w with
  | (Return _, w') =>
      files w' = files w /\ collection w' = collection w ++ concat bs
  | (Exit _, _) => False
  | (Raise _, _) => True
  end.
Proof.
  revert w. induction bs as [|b bs IH]; intros w.
  - cbn. now rewrite app_nil_r.
  - cbn [for_each]. unfold bind at 1. rewrite add_documents_run.
    destruct (add_texts_raises b); [exact I|].
    match goal with |- context [for_each bs _ ?w0] =>
      specialize (IH w0); destruct (for_each bs add_documents w0) as [[u| |] w1]
    end; cbn in *; auto.
    destruct IH as [Hf Hc]. split; [exact Hf|].
    rewrite Hc, <- app_assoc. reflexivity.
Qed.

Lemma create_loop_outcome (embeddings : HuggingFaceEmbeddings)
    (bs : list (list Document)) (w : World) :
  match for_each bs (fun batch_texts =>
                       h <- from_documents batch_texts embeddings ;; set_db h) w
  with
  | (Return _, w') =>
      files w' = files w /\ collection w' = collection w ++ concat bs
  | (Exit _, _) => False
  | (Raise _, _) => True
  end.
Proof.
  revert w. induction bs as [|b bs IH]; intros w.
  - cbn. now rewrite app_nil_r.
  - cbn [for_each]. unfold bind at 1. rewrite from_documents_run.
    destruct (add_texts_raises b); [exact I|].
    match goal with |- context [for_each bs ?body ?w0] =>
      specialize (IH w0); destruct (for_each bs body w0) as [[u| |] w1]
    end; cbn in *; auto.
    destruct IH as [Hf Hc]. split; [exact Hf|].
    rewrite Hc, <- app_assoc. reflexivity.
Qed.

Lemma filtered_files_nil_covered (all ignored : list string) :
  filtered_files all ignored = [] -> forall p, In p all -> In p ignored.
Proof.
  intros Hnil p Hp.
  destruct (in_dec string_dec p ignored) as [Hin|Hout]; [exact Hin|].
  assert (Hf : In p (filtered_files all ignored))
    by (apply filtered_files_In; now split).
  rewrite Hnil in Hf. destruct Hf.
Qed.

Lemma covered_filtered_files_nil (all ignored : list string) :
  (forall p, In p all -> In p ignored) -> filtered_files all ignored = [].
Proof.
  intros Hcov. destruct (filtered_files all ignored) as [|p rest] eqn:Hf;
    [reflexivity|].
  assert (Hin : In p (filtered_files all ignored)) by (rewrite Hf; now left).
  apply filtered_files_In in Hin as [Hall Hout]. now destruct (Hout (Hcov p Hall)).
Qed.

End Runs.

(** ** The statements at sample runs *)

(** C1 at a PDF of 51 pages, hence two batches, ingested into an empty
    store: both batches are submitted through [Chroma.from_documents]. *)
Lemma create_new_submits_every_batch_witness :
  Sample.pdf_process_documents [] (Sample.world_of [["long.pdf"]] [])
  = (Return Sample.long_pdf_texts,
     snd (Sample.pdf_process_documents [] (Sample.world_of [["long.pdf"]] [])))
  /\ (forall b, In b (batches batch_size Sample.long_pdf_texts) ->
        Sample.never_raises b = None)
  /\ exists w2,
       Sample.pdf_create_new Sample.embeddings_ok (Sample.world_of [["long.pdf"]] [])
       = (Return tt, w2)
       /\ trace w2
          = trace (snd (Sample.pdf_process_documents []
                          (Sample.world_of [["long.pdf"]] [])))
            ++ map EvFromDocuments (batches batch_size Sample.long_pdf_texts)
       /\ collection w2
          = collection (snd (Sample.pdf_process_documents []
                               (Sample.world_of [["long.pdf"]] [])))
            ++ Sample.long_pdf_texts
       /\ db w2 = match Sample.long_pdf_texts with
                  | [] => db (snd (Sample.pdf_process_documents []
                                     (Sample.world_of [["long.pdf"]] [])))
                  | _ :: _ => mkChroma (Embeddings Sample.embeddings_ok)
                  end
       /\ files w2
          = files (snd (Sample.pdf_process_documents []
                          (Sample.world_of [["long.pdf"]] []))).
Proof.
  assert (Hproc :
    Sample.pdf_process_documents [] (Sample.world_of [["long.pdf"]] [])
    = (Return Sample.long_pdf_texts,
       snd (Sample.pdf_process_documents [] (Sample.world_of [["long.pdf"]] []))))
    by (vm_compute; reflexivity).
  assert (Hok : forall b, In b (batches batch_size Sample.long_pdf_texts) ->
                  Sample.never_raises b = None)
    by (intros b _; reflexivity).
  split; [exact Hproc|]. split; [exact Hok|].
  exact (@create_new_submits_every_batch_by_from_documents
           (Sample.read_pages Sample.long_pdf) Sample.whole_documents
           Sample.in_order Sample.never_raises "source_documents"
           Sample.embeddings_ok (Sample.world_of [["long.pdf"]] [])
           (snd (Sample.pdf_process_documents []
                   (Sample.world_of [["long.pdf"]] [])))
           Sample.long_pdf_texts Hproc Hok).
Defined.

(** C1 as stated fails at the same input: the run into an empty store
    completes, its two submissions are both [Chroma.from_documents], and
    that is not "create from the first batch, append the later ones". *)
Lemma create_new_is_not_create_then_append :
  fst (Sample.pdf_main Sample.embeddings_ok (Sample.world_of [["long.pdf"]] []))
  = Return tt
  /\ length (batches batch_size Sample.long_pdf_texts) = 2
  /\ filter is_submission
       (trace (snd (Sample.pdf_main Sample.embeddings_ok
                      (Sample.world_of [["long.pdf"]] []))))
     = map EvFromDocuments (batches batch_size Sample.long_pdf_texts)
  /\ filter is_submission
       (trace (snd (Sample.pdf_main Sample.embeddings_ok
                      (Sample.world_of [["long.pdf"]] []))))
     <> create_then_append (batches batch_size Sample.long_pdf_texts).
Proof.
  split; [vm_compute; reflexivity|]. split; [vm_compute; reflexivity|].
  split; [vm_compute; reflexivity|].
  vm_compute. intros H. discriminate H.
Qed.

Lemma in_order_permutes (paths : list string) :
  Permutation (Sample.in_order paths) paths.
Proof. apply Permutation_refl. Qed.

(** C5 at a source directory whose only file is already stored. *)
Lemma no_new_documents_witness :
  (forall what, call_outcome Sample.embeddings_ok <> CallRaises what)
  /\ stored_sources
       (map metadata
          (collection (Sample.world_of [["a.txt"]] [Sample.stored_a_txt])))
     = Some ["source_documents/a.txt"]
  /\ filtered_files
       (all_files (files (Sample.world_of [["a.txt"]] [Sample.stored_a_txt]))
          "source_documents")
       ["source_documents/a.txt"] = []
  /\ Sample.one_text_process_documents ["source_documents/a.txt"]
       (Sample.world_of [["a.txt"]] [Sample.stored_a_txt])
     = (Exit 0, Sample.world_of [["a.txt"]] [Sample.stored_a_txt])
  /\ exists w',
       Sample.one_text_main Sample.embeddings_ok
         (Sample.world_of [["a.txt"]] [Sample.stored_a_txt])
       = (Exit 0, w')
       /\ collection w'
          = collection (Sample.world_of [["a.txt"]] [Sample.stored_a_txt])
       /\ files w' = files (Sample.world_of [["a.txt"]] [Sample.stored_a_txt])
       /\ Forall (fun ev => is_index_query ev = true)
            (events_since (Sample.world_of [["a.txt"]] [Sample.stored_a_txt]) w').
Proof.
  assert (Hcall : forall what,
            call_outcome Sample.embeddings_ok <> CallRaises what)
    by (intros what; discriminate).
  assert (Hsrc : stored_sources
            (map metadata
               (collection (Sample.world_of [["a.txt"]] [Sample.stored_a_txt])))
          = Some ["source_documents/a.txt"]) by reflexivity.
  assert (Hnone : filtered_files
            (all_files (files (Sample.world_of [["a.txt"]] [Sample.stored_a_txt]))
               "source_documents")
            ["source_documents/a.txt"] = []) by (vm_compute; reflexivity).
  split; [exact Hcall|]. split; [exact Hsrc|]. split; [exact Hnone|].
  exact (@no_new_documents_exits_before_chunking
           Sample.one_text Sample.whole_documents Sample.in_order
           Sample.never_raises "source_documents" in_order_permutes
           Sample.embeddings_ok
           (Sample.world_of [["a.txt"]] [Sample.stored_a_txt])
           ["source_documents/a.txt"] Hcall Hsrc Hnone).
Defined.

(** C8 as stated fails at an empty text file.  Its loader returns one
    document with no text, which the splitter turns into no chunk, so the
    first run completes and stores nothing; the second run on the unchanged
    directory lists no source, loads the file again and goes on to split. *)
Lemma rerun_reloads_empty_text_file :
  fst (Sample.empty_txt_main Sample.embeddings_ok
         (Sample.world_of [["empty.txt"]] []))
  = Return tt
  /\ collection (snd (Sample.empty_txt_main Sample.embeddings_ok
                        (Sample.world_of [["empty.txt"]] [])))
     = []
  /\ fst (Sample.empty_txt_main Sample.embeddings_ok
            (snd (Sample.empty_txt_main Sample.embeddings_ok
                    (Sample.world_of [["empty.txt"]] []))))
     = Return tt
  /\ events_since
       (snd (Sample.empty_txt_main Sample.embeddings_ok
               (Sample.world_of [["empty.txt"]] [])))
       (snd (Sample.empty_txt_main Sample.embeddings_ok
               (snd (Sample.empty_txt_main Sample.embeddings_ok
                       (Sample.world_of [["empty.txt"]] [])))))
     = [EvProbe; EvGet; EvLoad "source_documents/empty.txt";
        EvSplitDocuments
          [mkDocument "" [("source", "source_documents/empty.txt")]];
        EvPersist].
Proof.
  repeat split; vm_compute; reflexivity.
Qed.

(** The existence check at the two kinds of [TypeError]: the
    keyword-argument one swaps the embedding function of [db], the
    not-callable one is swallowed and leaves [db] alone. *)
Example keyword_probe_replaces_embedding_function :
  keyword_mismatch Sample.embeddings_kw = true
  /\ does_vectorstore_exist Sample.embeddings_kw (Sample.world_of [] [])
     = (Return false,
        mkWorld [] [] (mkChroma (NewEmbeddingFunction Sample.embeddings_kw))
          [EvProbe; EvSetEmbeddingFunction; EvGet]).
Proof. split; vm_compute; reflexivity. Qed.

Example not_callable_probe_leaves_db :
  keyword_mismatch Sample.embeddings_not_callable = false
  /\ does_vectorstore_exist Sample.embeddings_not_callable
       (Sample.world_of [] [Sample.stored_a_txt])
     = (Return true,
        mkWorld [] [Sample.stored_a_txt]
          (mkChroma (Embeddings Sample.embeddings_ok)) [EvProbe; EvGet]).
Proof. split; vm_compute; reflexivity. Qed.

(** Names starting with a dot are not enumerated, and a path without a dot
    is dispatched on its whole lowercased text. *)
Example scan_skips_hidden_names :
  all_files [[".cache"; "a.txt"]; [".notes.txt"]; ["docs"; "a.txt"]]
    "source_documents"
  = ["source_documents/docs/a.txt"].
Proof. vm_compute. reflexivity. Qed.

Example ext_of_without_dot : ext_of "README" = ".readme".
Proof. reflexivity. Qed.

(** * Further properties *)

(** ** What the scan lists *)

Lemma endswith_split (suffix s : string) :
  PyStr.endswith suffix s = true -> exists pre, s = (pre ++ suffix)%string.
Proof.
  induction s as [|c s IH]; cbn [PyStr.endswith]; intros H.
  - apply orb_true_iff in H as [H|H]; [|discriminate].
    apply String.eqb_eq in H. subst. now exists "".
  - apply orb_true_iff in H as [H|H].
    + apply String.eqb_eq in H. subst. now exists "".
    + destruct (IH H) as [pre ->]. now exists (String c pre).
Qed.

Lemma endswith_refl (s : string) : PyStr.endswith s s = true.
Proof.
  destruct s; cbn [PyStr.endswith]; now rewrite String.eqb_refl.
Qed.

(** Two suffixes of one string: one is a suffix of the other. *)
Lemma endswith_comparable (s1 s2 name : string) :
  PyStr.endswith s1 name = true ->
  PyStr.endswith s2 name = true ->
  PyStr.endswith s1 s2 = true \/ PyStr.endswith s2 s1 = true.
Proof.
  induction name as [|c name IH]; cbn [PyStr.endswith]; intros H1 H2.
  - rewrite orb_false_r in H1, H2.
    apply String.eqb_eq in H1, H2. subst. left. apply endswith_refl.
  - apply orb_true_iff in H1 as [H1|H1].
    + apply String.eqb_eq in H1. subst s1. right.
      cbn [PyStr.endswith]. exact H2.
    + apply orb_true_iff in H2 as [H2|H2].
      * apply String.eqb_eq in H2. subst s2. left.
        cbn [PyStr.endswith]. apply orb_true_iff. now right.
      * now apply IH.
Qed.

Lemma append_assoc (a b c : string) :
  ((a ++ b) ++ c)%string = (a ++ b ++ c)%string.
Proof.
  induction a as [|x a IH]; cbn; [reflexivity|]. now rewrite IH.
Qed.

Lemma join_components_last (comps : list string) :
  exists pre, Glob.join_components comps = (pre ++ last comps "")%string.
Proof.
  induction comps as [|name comps IH]; [now exists ""|].
  destruct comps as [|next comps]; [now exists ""|].
  destruct IH as [pre Hpre].
  exists (name ++ "/" ++ pre)%string.
  change (Glob.join_components (name :: next :: comps))
    with (name ++ "/" ++ Glob.join_components (next :: comps))%string.
  change (last (name :: next :: comps) "") with (last (next :: comps) "").
  rewrite Hpre, !append_assoc. reflexivity.
Qed.

Lemma rendered_suffix (source_dir suffix : string) (comps : list string) :
  Glob.name_matches suffix comps = true ->
  exists pre, rendered source_dir comps = (pre ++ suffix)%string.
Proof.
  unfold Glob.name_matches, rendered, Glob.path_join. intros Hm.
  destruct (endswith_split _ _ Hm) as [pre1 H1].
  destruct (join_components_last comps) as [pre2 H2].
  rewrite H2, H1.
  destruct (String.eqb source_dir ""); [|destruct (PyStr.endswith "/" source_dir)].
  - exists (pre2 ++ pre1)%string. now rewrite append_assoc.
  - exists (source_dir ++ pre2 ++ pre1)%string. now rewrite !append_assoc.
  - exists (source_dir ++ "/" ++ pre2 ++ pre1)%string. now rewrite !append_assoc.
Qed.

Lemma all_files_by_suffix (tree : Tree) (source_dir : string) :
  all_files tree source_dir
  = flat_map (Glob.glob tree source_dir) scan_suffixes.
Proof.
  unfold all_files, scan_suffixes.
  induction (map fst LOADER_MAPPING) as [|ext keys IH]; [reflexivity|].
  cbn [flat_map app]. rewrite IH, <- app_assoc. reflexivity.
Qed.

(** Every suffix the scan globs for is dispatched by [load_single_document],
    whatever precedes it in the path. *)
Lemma scan_suffix_registered (suffix pre : string) :
  In suffix scan_suffixes ->
  exists entry, registry_entry (pre ++ suffix)%string = Some entry.
Proof.
  intros Hin. unfold registry_entry, ext_of.
  cbv [scan_suffixes LOADER_MAPPING map fst flat_map app] in Hin.
  cbn in Hin.
  repeat (destruct Hin as [<-|Hin];
          [rewrite rsplit_last_append; eexists; reflexivity|]).
  destruct Hin.
Qed.

(** X1. Every path the scan hands to the pool has a registered loader: the
    scan never makes [load_single_document] raise its [ValueError]. *)
Theorem scanned_paths_are_supported
    (loader_load : LoaderClass -> string -> LoaderArgs -> string + list Document)
    (tree : Tree) (source_dir p : string) :
  In p (all_files tree source_dir) ->
  (exists entry, registry_entry p = Some entry)
  /\ forall msg, load_single_document loader_load p <> inl (ValueError msg).
Proof.
  intros Hin. rewrite all_files_by_suffix in Hin.
  apply in_flat_map in Hin as [suffix [Hsuffix Hp]].
  unfold Glob.glob in Hp. apply in_map_iff in Hp as [comps [<- Hf]].
  apply filter_In in Hf as [_ Hok]. apply andb_true_iff in Hok as [_ Hm].
  destruct (rendered_suffix source_dir _ _ Hm) as [pre Hpre].
  unfold rendered in Hpre. rewrite Hpre.
  destruct (scan_suffix_registered pre Hsuffix) as [entry Hentry].
  split; [now exists entry|].
  intros msg. unfold load_single_document. rewrite dict_mem_get.
  unfold registry_entry in Hentry. rewrite Hentry.
  destruct entry as [cls args].
  destruct (loader_load cls _ args); discriminate.
Qed.

Section OncePerEntry.

Variable render : list string -> string.
Variable matches : string -> list string -> bool.

Local Abbreviation hit := (entry_hit render matches).
Local Abbreviation listing := (suffix_listing render matches).

Lemma listing_cons (c : list string) (tree : Tree) (pats : list string) :
  Permutation (flat_map (listing (c :: tree)) pats)
              (flat_map (hit c) pats ++ flat_map (listing tree) pats).
Proof.
  induction pats as [|s pats IH]; [constructor|].
  cbn [flat_map].
  assert (Hhead : listing (c :: tree) s = hit c s ++ listing tree s).
  { unfold suffix_listing, entry_hit. cbn [filter].
    destruct (Glob.visible c && matches s c); reflexivity. }
  rewrite Hhead, <- !app_assoc. apply Permutation_app_head.
  rewrite IH. apply Permutation_app_swap_app.
Qed.

Lemma hit_none (c : list string) (pats : list string) :
  (forall s, In s pats -> matches s c = false) -> flat_map (hit c) pats = [].
Proof.
  induction pats as [|s pats IH]; intros Hnone; [reflexivity|].
  cbn [flat_map]. unfold entry_hit at 1.
  rewrite (Hnone s (or_introl eq_refl)), andb_false_r.
  apply IH. intros s' Hs'. apply Hnone. now right.
Qed.

Lemma hit_once (c : list string) (pats : list string) :
  NoDup pats ->
  (forall s1 s2, In s1 pats -> In s2 pats ->
     matches s1 c = true -> matches s2 c = true -> s1 = s2) ->
  flat_map (hit c) pats
  = if Glob.visible c && existsb (fun s => matches s c) pats
    then [render c] else [].
Proof.
  induction pats as [|s pats IH]; intros Hnodup Hexcl.
  - cbn. now rewrite andb_false_r.
  - inversion Hnodup as [|? ? Hnotin Hnodup']; subst.
    cbn [flat_map existsb]. unfold entry_hit at 1.
    destruct (matches s c) eqn:Hs.
    + rewrite hit_none, app_nil_r; [now rewrite orb_true_l|].
      intros s' Hs'. destruct (matches s' c) eqn:Hm; [|reflexivity].
      exfalso. apply Hnotin.
      rewrite (Hexcl s s' (or_introl eq_refl) (or_intror Hs') Hs Hm).
      exact Hs'.
    + rewrite andb_false_r, orb_false_l. cbn [app]. apply IH; [exact Hnodup'|].
      intros s1 s2 H1 H2. apply Hexcl; now right.
Qed.

Lemma listing_once (tree : Tree) (pats : list string) :
  NoDup pats ->
  (forall c s1 s2, In s1 pats -> In s2 pats ->
     matches s1 c = true -> matches s2 c = true -> s1 = s2) ->
  Permutation
    (flat_map (listing tree) pats)
    (map render
       (filter (fun c => Glob.visible c && existsb (fun s => matches s c) pats)
          tree)).
Proof.
  intros Hnodup Hexcl. induction tree as [|c tree IH].
  - cbn. induction pats as [|s pats IHp]; [constructor|].
    cbn. inversion Hnodup as [|? ? Hnotin Hnodup']; subst.
    apply IHp; [exact Hnodup'|].
    intros c s1 s2 Ha Hb. apply Hexcl; now right.
  - rewrite listing_cons, (@hit_once c pats Hnodup (Hexcl c)). cbn [filter].
    destruct (Glob.visible c && existsb (fun s => matches s c) pats);
      cbn [map app]; [apply perm_skip|]; exact IH.
Qed.

End OncePerEntry.

Lemma scan_suffixes_NoDup : NoDup scan_suffixes.
Proof.
  assert (H : nodup string_dec scan_suffixes = scan_suffixes)
    by (vm_compute; reflexivity).
  rewrite <- H. apply NoDup_nodup.
Qed.

Lemma scan_suffixes_exclusive (c : list string) (s1 s2 : string) :
  In s1 scan_suffixes -> In s2 scan_suffixes ->
  Glob.name_matches s1 c = true -> Glob.name_matches s2 c = true -> s1 = s2.
Proof.
  intros H1 H2 Hm1 Hm2. unfold Glob.name_matches in *.
  assert (Htable :
    forallb (fun a =>
      forallb (fun b => implb (PyStr.endswith a b) (String.eqb a b))
        scan_suffixes) scan_suffixes = true) by (vm_compute; reflexivity).
  rewrite forallb_forall in Htable.
  assert (Hsuf : forall a b, In a scan_suffixes -> In b scan_suffixes ->
            PyStr.endswith a b = true -> a = b).
  { intros a b Ha Hb Hab. specialize (Htable a Ha).
    rewrite forallb_forall in Htable. specialize (Htable b Hb).
    rewrite Hab in Htable. now apply String.eqb_eq. }
  destruct (endswith_comparable _ _ _ Hm1 Hm2) as [H|H].
  - now apply Hsuf.
  - symmetry. now apply Hsuf.
Qed.

(** X2. On a file system that distinguishes case, and for a source
    directory whose name [glob] reads literally (no [*], [?] or [[] in it),
    the scan lists every entry that has no hidden component and whose name
    ends in the lowercase or the uppercase form of a registered extension
    exactly once, and lists nothing else: no file is handed to the pool
    twice. *)
Theorem scan_lists_each_entry_once (tree : Tree) (source_dir : string) :
  Glob.has_magic source_dir = false ->
  Permutation (all_files tree source_dir)
              (map (rendered source_dir) (filter is_scanned tree)).
Proof.
  intros _. rewrite all_files_by_suffix.
  exact (@listing_once (rendered source_dir) Glob.name_matches tree
           scan_suffixes scan_suffixes_NoDup scan_suffixes_exclusive).
Qed.

(** ** The shape of the batches *)

Lemma removelast_map (A B : Type) (f : A -> B) (l : list A) :
  removelast (map f l) = map f (removelast l).
Proof.
  induction l as [|a l IH]; [reflexivity|].
  destruct l as [|b l]; [reflexivity|].
  change (removelast (map f (a :: b :: l)))
    with (f a :: removelast (map f (b :: l))).
  now rewrite IH.
Qed.

Lemma range_fuel_below (size stop fuel start : nat) :
  Forall (fun i => i < stop) (range_fuel fuel start stop size).
Proof.
  revert start. induction fuel as [|fuel IH]; intros start; cbn [range_fuel].
  - constructor.
  - destruct (Nat.ltb_spec start stop); constructor; [assumption|apply IH].
Qed.

Lemma range_fuel_full (size stop fuel start : nat) :
  Forall (fun i => i + size <= stop)
         (removelast (range_fuel fuel start stop size)).
Proof.
  revert start. induction fuel as [|fuel IH]; intros start; cbn [range_fuel].
  - constructor.
  - destruct (Nat.ltb_spec start stop) as [Hlt|Hge]; [|constructor].
    specialize (IH (start + size)).
    destruct (range_fuel fuel (start + size) stop size) as [|next rest] eqn:Hrest;
      [constructor|].
    change (removelast (start :: next :: rest))
      with (start :: removelast (next :: rest)).
    constructor; [|exact IH].
    pose proof (range_fuel_below size stop fuel (start + size)) as Hbelow.
    rewrite Hrest in Hbelow. inversion Hbelow as [|? ? Hnext _]; subst.
    destruct fuel as [|fuel']; [discriminate Hrest|].
    cbn [range_fuel] in Hrest.
    destruct (Nat.ltb_spec (start + size) stop); [lia|discriminate Hrest].
Qed.

Lemma slice_length (A : Type) (size i : nat) (texts : list A) :
  length (slice i (i + size) texts) = Nat.min size (length texts - i).
Proof.
  unfold slice. replace (i + size - i) with size by lia.
  now rewrite length_firstn, length_skipn.
Qed.

(** X3. Every batch but the last holds exactly 50 chunks and no batch is
    empty: the backend is never called with an empty list. *)
Theorem batches_full_but_last (texts : list Document) :
  Forall (fun batch => length batch = batch_size)
         (removelast (batches batch_size texts))
  /\ Forall (fun batch => batch <> []) (batches batch_size texts).
Proof.
  unfold batches, range. split.
  - rewrite removelast_map. apply Forall_forall. intros batch Hin.
    apply in_map_iff in Hin as [i [<- Hi]].
    pose proof (range_fuel_full batch_size (length texts)
                  (length texts - 0) 0) as Hfull.
    rewrite Forall_forall in Hfull. specialize (Hfull i Hi). cbn beta in Hfull.
    rewrite slice_length. lia.
  - apply Forall_forall. intros batch Hin.
    apply in_map_iff in Hin as [i [<- Hi]].
    pose proof (range_fuel_below batch_size (length texts)
                  (length texts - 0) 0) as Hbelow.
    rewrite Forall_forall in Hbelow. specialize (Hbelow i Hi). cbn beta in Hbelow.
    intros Hnil. apply (f_equal (@length Document)) in Hnil.
    rewrite slice_length in Hnil. cbn [length] in Hnil.
    unfold batch_size in Hnil. lia.
Qed.

(** ** Loading the scanned files *)

Section Loads.

Variable loader_load :
  LoaderClass -> string -> LoaderArgs -> string + list Document.

Local Abbreviation loads p :=
  (exists docs, load_single_document loader_load p = inr docs).

Lemma load_each_success (paths : list string) (w : World) :
  Forall (fun p => loads p) paths ->
  load_each loader_load paths w
  = (Return (flat_map (docs_of loader_load) paths),
     mkWorld (files w) (collection w) (db w) (trace w ++ map EvLoad paths)).
Proof.
  revert w. induction paths as [|p paths IH]; intros w Hall.
  - cbn. rewrite app_nil_r. now destruct w.
  - inversion Hall as [|? ? [docs Hp] Hrest]; subst.
    cbn [load_each flat_map map]. unfold bind at 1. unfold emit at 1.
    unfold docs_of at 1. rewrite Hp. unfold bind at 1.
    rewrite IH by exact Hrest. cbn. rewrite <- app_assoc. reflexivity.
Qed.

Lemma load_each_failure (pre post : list string) (p : string) (e : Exception)
    (w : World) :
  Forall (fun q => loads q) pre ->
  load_single_document loader_load p = inl e ->
  load_each loader_load (pre ++ p :: post) w
  = (Raise e,
     mkWorld (files w) (collection w) (db w)
       (trace w ++ map EvLoad (pre ++ [p]))).
Proof.
  revert w. induction pre as [|q pre IH]; intros w Hall Hp.
  - cbn [app load_each map]. unfold bind at 1. unfold emit at 1.
    now rewrite Hp.
  - inversion Hall as [|? ? [docs Hq] Hrest]; subst.
    cbn [app load_each map]. unfold bind at 1. unfold emit at 1.
    rewrite Hq. unfold bind at 1. rewrite IH by assumption.
    cbn. rewrite <- app_assoc. reflexivity.
Qed.

Lemma first_failure (paths : list string) :
  Forall (fun p => loads p) paths
  \/ exists pre p post e,
       paths = pre ++ p :: post
       /\ Forall (fun q => loads q) pre
       /\ load_single_document loader_load p = inl e.
Proof.
  induction paths as [|p paths IH]; [left; constructor|].
  destruct (load_single_document loader_load p) as [e|docs] eqn:Hp.
  - right. exists [], p, paths, e. repeat split; [constructor|exact Hp].
  - destruct IH as [Hall|[pre [q [post [e [-> [Hpre Hq]]]]]]].
    + left. constructor; [now exists docs|exact Hall].
    + right. exists (p :: pre), q, post, e. repeat split; [|exact Hq].
      constructor; [now exists docs|exact Hpre].
Qed.

Variable completion_order : list string -> list string.

(** X4. Loading is all or nothing.  Either every file left after the
    exclusion loads, and [load_documents] returns the documents of all of
    them put together in the order the pool hands them back; or it raises
    what the first failing file raised, returning no document at all, the
    files handed back before it having loaded. *)
Theorem load_documents_all_or_first_error
    (source_dir : string) (ignored : list string) (w : World) :
  let paths :=
    completion_order (filtered_files (all_files (files w) source_dir) ignored) in
  (Forall (fun p => loads p) paths
   /\ load_documents loader_load completion_order source_dir ignored w
      = (Return (flat_map (docs_of loader_load) paths),
         mkWorld (files w) (collection w) (db w) (trace w ++ map EvLoad paths)))
  \/ exists pre p post e,
       paths = pre ++ p :: post
       /\ Forall (fun q => loads q) pre
       /\ load_single_document loader_load p = inl e
       /\ load_documents loader_load completion_order source_dir ignored w
          = (Raise e,
             mkWorld (files w) (collection w) (db w)
               (trace w ++ map EvLoad (pre ++ [p]))).
Proof.
  intros paths. unfold load_documents, bind, gets. fold paths.
  destruct (first_failure paths) as [Hall|[pre [p [post [e [Hsplit [Hpre Hp]]]]]]].
  - left. split; [exact Hall|]. now apply load_each_success.
  - right. exists pre, p, post, e. repeat split; try assumption.
    rewrite Hsplit. now apply load_each_failure.
Qed.

End Loads.

(** X5. Which documents are loaded does not depend on the order in which
    the pool hands the results back: if the load returns under one order, it
    returns under any other, with the same documents up to their order. *)
Theorem load_documents_order_independent
    (loader_load : LoaderClass -> string -> LoaderArgs -> string + list Document)
    (order1 order2 : list string -> list string)
    (source_dir : string) (ignored : list string)
    (w w1 : World) (docs1 : list Document) :
  (forall paths, Permutation (order1 paths) paths) ->
  (forall paths, Permutation (order2 paths) paths) ->
  load_documents loader_load order1 source_dir ignored w = (Return docs1, w1) ->
  exists docs2 w2,
    load_documents loader_load order2 source_dir ignored w = (Return docs2, w2)
    /\ Permutation docs1 docs2.
Proof.
  intros Hperm1 Hperm2 Hrun.
  set (candidates := filtered_files (all_files (files w) source_dir) ignored) in *.
  assert (Hboth : Permutation (order1 candidates) (order2 candidates)).
  { rewrite Hperm1. symmetry. apply Hperm2. }
  unfold load_documents, bind, gets in *. fold candidates in Hrun |- *.
  destruct (first_failure loader_load (order1 candidates))
    as [Hall|[pre [p [post [e [Hsplit [Hpre Hp]]]]]]].
  - rewrite (@load_each_success loader_load _ w Hall) in Hrun.
    injection Hrun as <- _.
    assert (Hall2 : Forall
              (fun p => exists docs, load_single_document loader_load p = inr docs)
              (order2 candidates)).
    { rewrite Forall_forall in *. intros p Hp. apply Hall.
      apply (Permutation_in p (Permutation_sym Hboth) Hp). }
    rewrite (@load_each_success loader_load _ w Hall2).
    do 2 eexists. split; [reflexivity|].
    now apply Permutation_flat_map.
  - rewrite Hsplit, (@load_each_failure loader_load pre post p e w Hpre Hp)
      in Hrun.
    discriminate Hrun.
Qed.

(** ** The driver, branch by branch *)

Section Branches.

Variable loader_load :
  LoaderClass -> string -> LoaderArgs -> string + list Document.
Variable split_documents : nat -> nat -> list Document -> list Document.
Variable completion_order : list string -> list string.
Variable add_texts_raises : list Document -> option string.
Variable source_directory : string.

Local Abbreviation load_each := (load_each loader_load).
Local Abbreviation process_documents :=
  (process_documents loader_load split_documents completion_order
     source_directory).
Local Abbreviation add_documents := (add_documents add_texts_raises).
Local Abbreviation from_documents := (from_documents add_texts_raises).
Local Abbreviation append_to_existing :=
  (append_to_existing loader_load split_documents completion_order
     add_texts_raises source_directory).
Local Abbreviation create_new :=
  (create_new loader_load split_documents completion_order
     add_texts_raises source_directory).
Local Abbreviation main :=
  (main loader_load split_documents completion_order add_texts_raises
     source_directory).

Lemma append_to_existing_start (w : World) :
  append_to_existing w
  = match stored_sources (map metadata (collection w)) with
    | Some ignored =>
        (texts <- process_documents ignored ;;
         for_each (batches batch_size texts) add_documents) (after_get w)
    | None => (Raise (KeyError "source"), after_get w)
    end.
Proof.
  unfold append_to_existing. unfold bind at 1. unfold db_get at 1.
  unfold bind at 1. unfold emit at 1. unfold bind at 1. unfold gets at 1.
  unfold ret at 1. cbn [collection metadatas]. unfold bind at 1.
  rewrite stored_sources_run. fold (after_get w).
  now destruct (stored_sources (map metadata (collection w))).
Qed.

Lemma process_documents_keeps_db (ignored : list string) (w w1 : World)
    (texts : list Document) :
  process_documents ignored w = (Return texts, w1) ->
  db w1 = db w /\ collection w1 = collection w /\ files w1 = files w.
Proof.
  unfold process_documents, load_documents. unfold bind at 1. unfold bind at 1.
  unfold gets at 1.
  match goal with |- context [load_each ?paths w] =>
    pose proof (load_each_outcome loader_load paths w) as Hload;
    destruct (load_each paths w) as [[docs| |] w0]
  end; [|destruct Hload|discriminate].
  destruct Hload as [-> _].
  destruct docs as [|d docs]; [discriminate|].
  unfold bind, emit, ret. cbn. intros H. injection H as _ <-. now cbn.
Qed.

(** X6. In the [if] branch every batch is submitted through
    [db.add_documents], in order, on the handle [db] already bound, which is
    not rebound; [Chroma.from_documents] is not used.  When the backend
    accepts every batch the collection ends up extended by the whole chunk
    sequence. *)
Theorem append_to_existing_submits_by_add_documents
    (w w1 : World) (ignored : list string) (texts : list Document) :
  stored_sources (map metadata (collection w)) = Some ignored ->
  process_documents ignored (after_get w) = (Return texts, w1) ->
  (forall b, In b (batches batch_size texts) -> add_texts_raises b = None) ->
  exists w2,
    append_to_existing w = (Return tt, w2)
    /\ trace w2 = trace w1 ++ map EvAddDocuments (batches batch_size texts)
    /\ collection w2 = collection w ++ texts
    /\ db w2 = db w
    /\ files w2 = files w.
Proof.
  intros Hsrc Hproc Hok.
  rewrite append_to_existing_start, Hsrc. unfold bind at 1. rewrite Hproc.
  rewrite (append_loop_run add_texts_raises _ w1 Hok).
  destruct (process_documents_keeps_db _ _ Hproc) as [Hdb [Hcol Hfiles]].
  eexists. split; [reflexivity|]. cbn.
  rewrite batches_concat, Hdb, Hcol, Hfiles. now cbn.
Qed.

Lemma append_loop_failure (pre post : list (list Document))
    (b : list Document) (what : string) (w : World) :
  (forall x, In x pre -> add_texts_raises x = None) ->
  add_texts_raises b = Some what ->
  for_each (pre ++ b :: post) add_documents w
  = (Raise (BackendRaised what),
     mkWorld (files w) (collection w ++ concat pre) (db w)
       (trace w ++ map EvAddDocuments (pre ++ [b]))).
Proof.
  revert w. induction pre as [|x pre IH]; intros w Hpre Hb.
  - cbn [app for_each concat map]. unfold bind at 1.
    rewrite add_documents_run, Hb. now rewrite app_nil_r.
  - cbn [app for_each concat map]. unfold bind at 1.
    rewrite add_documents_run, (Hpre x (or_introl eq_refl)).
    rewrite IH; [|intros y Hy; apply Hpre; now right|exact Hb].
    cbn. now rewrite <- !app_assoc.
Qed.

(** X7. When the backend rejects a batch in the [if] branch, the branch
    ends with that exception: the batches before it stay in the collection
    and the batches after it are not submitted. *)
Theorem append_to_existing_stops_at_rejected_batch
    (w w1 : World) (ignored : list string) (texts : list Document)
    (pre post : list (list Document)) (b : list Document) (what : string) :
  stored_sources (map metadata (collection w)) = Some ignored ->
  process_documents ignored (after_get w) = (Return texts, w1) ->
  batches batch_size texts = pre ++ b :: post ->
  (forall x, In x pre -> add_texts_raises x = None) ->
  add_texts_raises b = Some what ->
  exists w2,
    append_to_existing w = (Raise (BackendRaised what), w2)
    /\ collection w2 = collection w ++ concat pre
    /\ trace w2 = trace w1 ++ map EvAddDocuments (pre ++ [b])
    /\ db w2 = db w.
Proof.
  intros Hsrc Hproc Hsplit Hpre Hb.
  assert (Hrun : append_to_existing w
          = (Raise (BackendRaised what),
             mkWorld (files w1) (collection w1 ++ concat pre) (db w1)
               (trace w1 ++ map EvAddDocuments (pre ++ [b])))).
  { rewrite append_to_existing_start, Hsrc. unfold bind at 1.
    rewrite Hproc, Hsplit. now apply append_loop_failure. }
  destruct (process_documents_keeps_db _ _ Hproc) as [Hdb [Hcol _]].
  eexists. split; [exact Hrun|]. cbn [collection trace db].
  split; [now rewrite Hcol|]. split; [reflexivity|exact Hdb].
Qed.

(** *** What every run keeps *)

Lemma grows_by_refl (P : Event -> Prop) (w : World) : grows_by P w w.
Proof.
  repeat split.
  - exists []. now rewrite app_nil_r.
  - exists []. split; [now rewrite app_nil_r|constructor].
Qed.

Lemma grows_by_trans (P : Event -> Prop) (w1 w2 w3 : World) :
  grows_by P w1 w2 -> grows_by P w2 w3 -> grows_by P w1 w3.
Proof.
  intros [Hf1 [[a1 Hc1] [e1 [Ht1 HP1]]]] [Hf2 [[a2 Hc2] [e2 [Ht2 HP2]]]].
  repeat split.
  - congruence.
  - exists (a1 ++ a2). now rewrite Hc2, Hc1, app_assoc.
  - exists (e1 ++ e2). split; [now rewrite Ht2, Ht1, app_assoc|].
    now apply Forall_app.
Qed.

Lemma grows_by_emit (P : Event -> Prop) (ev : Event) (w : World) :
  P ev -> grows_by P w (snd (emit ev w)).
Proof.
  intros Hev. repeat split; cbn.
  - exists []. now rewrite app_nil_r.
  - exists [ev]. split; [reflexivity|now repeat constructor].
Qed.

Lemma grows_by_bind (P : Event -> Prop) (A B : Type) (c : M A) (k : A -> M B)
    (w : World) :
  grows_by P w (snd (c w)) ->
  (forall a w', grows_by P w' (snd (k a w'))) ->
  grows_by P w (snd (bind c k w)).
Proof.
  intros Hc Hk. unfold bind. destruct (c w) as [[a|status|e] w']; cbn in *;
    [|exact Hc|exact Hc].
  apply (grows_by_trans Hc). apply Hk.
Qed.

Lemma grows_by_for_each (P : Event -> Prop) (A : Type) (xs : list A)
    (body : A -> M unit) (w : World) :
  (forall x w', grows_by P w' (snd (body x w'))) ->
  grows_by P w (snd (for_each xs body w)).
Proof.
  intros Hbody. revert w. induction xs as [|x xs IH]; intros w.
  - apply grows_by_refl.
  - cbn [for_each]. apply grows_by_bind; [apply Hbody|]. intros _ w'. apply IH.
Qed.

Lemma grows_by_set_db (P : Event -> Prop) (h : Chroma) (w : World) :
  grows_by P w (snd (set_db h w)).
Proof.
  repeat split; cbn.
  - exists []. now rewrite app_nil_r.
  - exists []. split; [now rewrite app_nil_r|constructor].
Qed.

Lemma grows_by_add_documents (P : Event -> Prop) (b : list Document) (w : World) :
  P (EvAddDocuments b) -> grows_by P w (snd (add_documents b w)).
Proof.
  intros HP. rewrite add_documents_run.
  destruct (add_texts_raises b); cbn; repeat split; cbn.
  - exists []. now rewrite app_nil_r.
  - eexists. split; [reflexivity|now repeat constructor].
  - now exists b.
  - eexists. split; [reflexivity|now repeat constructor].
Qed.

Lemma grows_by_from_documents (P : Event -> Prop)
    (embeddings : HuggingFaceEmbeddings) (b : list Document) (w : World) :
  P (EvFromDocuments b) ->
  grows_by P w (snd ((h <- from_documents b embeddings ;; set_db h) w)).
Proof.
  intros HP. rewrite from_documents_run.
  destruct (add_texts_raises b); cbn; repeat split; cbn.
  - exists []. now rewrite app_nil_r.
  - eexists. split; [reflexivity|now repeat constructor].
  - now exists b.
  - eexists. split; [reflexivity|now repeat constructor].
Qed.

Lemma grows_by_load_each (P : Event -> Prop) (paths : list string) (w : World) :
  (forall p, P (EvLoad p)) ->
  grows_by P w (snd (load_each paths w)).
Proof.
  intros HP. revert w. induction paths as [|p paths IH]; intros w.
  - apply grows_by_refl.
  - cbn [load_each]. apply grows_by_bind; [now apply grows_by_emit|].
    intros _ w'. destruct (load_single_document loader_load p);
      [apply grows_by_refl|].
    apply grows_by_bind; [apply IH|]. intros a w''. apply grows_by_refl.
Qed.

Lemma grows_by_process_documents (P : Event -> Prop) (ignored : list string)
    (w : World) :
  (forall p, P (EvLoad p)) -> (forall docs, P (EvSplitDocuments docs)) ->
  grows_by P w (snd (process_documents ignored w)).
Proof.
  intros Hload Hsplit. unfold process_documents, load_documents.
  apply grows_by_bind.
  - apply grows_by_bind; [apply grows_by_refl|].
    intros tree w'. now apply grows_by_load_each.
  - intros [|d docs] w'; [apply grows_by_refl|].
    apply grows_by_bind; [now apply grows_by_emit|].
    intros _ w''. apply grows_by_refl.
Qed.

Lemma grows_by_does_vectorstore_exist (P : Event -> Prop)
    (embeddings : HuggingFaceEmbeddings) (w : World) :
  P EvProbe -> P EvSetEmbeddingFunction -> P EvGet ->
  grows_by P w (snd (does_vectorstore_exist embeddings w)).
Proof.
  intros Hprobe Hset Hget. unfold does_vectorstore_exist.
  apply grows_by_bind; [now apply grows_by_emit|]. intros _ w1.
  apply grows_by_bind.
  - destruct (call_outcome embeddings) as [|msg|what];
      try apply grows_by_refl.
    destruct (PyStr.contains _ msg); [|apply grows_by_refl].
    unfold set_embedding_function.
    apply grows_by_bind; [now apply grows_by_emit|].
    intros _ w2. apply grows_by_set_db.
  - intros _ w2. unfold db_get.
    apply grows_by_bind.
    + apply grows_by_bind; [now apply grows_by_emit|].
      intros _ w3. apply grows_by_bind; [apply grows_by_refl|].
      intros records w4. apply grows_by_refl.
    + intros got w3. destruct (documents got); apply grows_by_refl.
Qed.

Lemma grows_by_branch (P : Event -> Prop)
    (embeddings : HuggingFaceEmbeddings) (vectorstore_exists : bool) (w : World) :
  (forall ev, ev <> EvPersist -> P ev) ->
  grows_by P w
    (snd ((if vectorstore_exists then append_to_existing
           else create_new embeddings) w)).
Proof.
  intros HP. destruct vectorstore_exists.
  - rewrite append_to_existing_start.
    assert (Hget : grows_by P w (after_get w)).
    { apply (@grows_by_emit P EvGet w). apply HP. discriminate. }
    destruct (stored_sources (map metadata (collection w))) as [ignored|];
      [|exact Hget].
    apply (grows_by_trans Hget).
    apply grows_by_bind.
    + apply grows_by_process_documents; intros; apply HP; discriminate.
    + intros texts w3. apply grows_by_for_each. intros b w4.
      apply grows_by_add_documents. apply HP. discriminate.
  - apply grows_by_bind.
    + apply grows_by_process_documents; intros; apply HP; discriminate.
    + intros texts w3. apply grows_by_for_each. intros b w4.
      apply grows_by_from_documents. apply HP. discriminate.
Qed.

Lemma main_unfold (embeddings : HuggingFaceEmbeddings) (w : World) :
  main embeddings w
  = match does_vectorstore_exist embeddings
            (mkWorld (files w) (collection w)
               (mkChroma (Embeddings embeddings)) (trace w)) with
    | (Return vectorstore_exists, w1) =>
        match (if vectorstore_exists then append_to_existing
               else create_new embeddings) w1 with
        | (Return _, w2) => (Return tt, snd (emit EvPersist w2))
        | (Exit status, w2) => (Exit status, w2)
        | (Raise e, w2) => (Raise e, w2)
        end
    | (Exit status, w1) => (Exit status, w1)
    | (Raise e, w1) => (Raise e, w1)
    end.
Proof.
  unfold main. unfold bind at 1. unfold set_db at 1. unfold bind at 1.
  destruct (does_vectorstore_exist embeddings _) as [[x|status|e] w1];
    [|reflexivity|reflexivity].
  unfold bind at 1.
  destruct ((if x then append_to_existing else create_new embeddings) w1)
    as [[u|status|e] w2]; reflexivity.
Qed.

(** The driver up to its last statement: whatever happens, the world
    before [db.persist()] has grown from the initial one without a persist,
    and the run either persists that world and returns, or ends in it. *)
Lemma main_shape (embeddings : HuggingFaceEmbeddings) (w : World) :
  exists wp,
    grows_by (fun ev => ev <> EvPersist) w wp
    /\ (main embeddings w = (Return tt, snd (emit EvPersist wp))
        \/ (exists status, main embeddings w = (Exit status, wp))
        \/ (exists e, main embeddings w = (Raise e, wp))).
Proof.
  rewrite main_unfold.
  match goal with |- context [does_vectorstore_exist embeddings ?w0] =>
    assert (H0 : grows_by (fun ev => ev <> EvPersist) w w0)
      by apply (grows_by_set_db _ (mkChroma (Embeddings embeddings)) w);
    pose proof (@grows_by_does_vectorstore_exist
                  (fun ev => ev <> EvPersist) embeddings w0) as Hd;
    destruct (does_vectorstore_exist embeddings w0) as [[x|status|e] w1]
  end; cbn [snd] in Hd.
  - assert (H1 : grows_by (fun ev => ev <> EvPersist) w w1).
    { apply (grows_by_trans H0). apply Hd; discriminate. }
    pose proof (@grows_by_branch (fun ev => ev <> EvPersist) embeddings x w1
                  (fun ev H => H)) as Hb.
    destruct ((if x then append_to_existing else create_new embeddings) w1)
      as [[u|status|e] w2]; cbn [snd] in Hb; exists w2;
      (split; [exact (grows_by_trans H1 Hb)|]).
    + left. reflexivity.
    + right. left. eexists. reflexivity.
    + right. right. eexists. reflexivity.
  - exists w1. split; [apply (grows_by_trans H0); apply Hd; discriminate|].
    right. left. eexists. reflexivity.
  - exists w1. split; [apply (grows_by_trans H0); apply Hd; discriminate|].
    right. right. eexists. reflexivity.
Qed.

(** X8. A run that returns has called [db.persist()] exactly once, as its
    last call; a run that exits or ends with an exception has not called it
    at all. *)
Theorem main_persists_once_at_the_end
    (embeddings : HuggingFaceEmbeddings) (w : World) :
  match fst (main embeddings w) with
  | Return _ =>
      exists evs,
        events_since w (snd (main embeddings w)) = evs ++ [EvPersist]
        /\ ~ In EvPersist evs
  | Exit _ | Raise _ =>
      ~ In EvPersist (events_since w (snd (main embeddings w)))
  end.
Proof.
  destruct (main_shape embeddings w)
    as [wp [[_ [_ [evs [Htrace Hevs]]]] [Hrun|[[status Hrun]|[e Hrun]]]]];
    rewrite Hrun; cbn [fst snd].
  - exists evs. split.
    + apply events_since_app. cbn. now rewrite Htrace, app_assoc.
    + intros Hin. rewrite Forall_forall in Hevs. now apply (Hevs _ Hin).
  - rewrite (@events_since_app w wp evs Htrace).
    intros Hin. rewrite Forall_forall in Hevs. now apply (Hevs _ Hin).
  - rewrite (@events_since_app w wp evs Htrace).
    intros Hin. rewrite Forall_forall in Hevs. now apply (Hevs _ Hin).
Qed.

(** X9. However a run ends, by returning, exiting or raising, it leaves
    the source tree as it was and the records stored before it in place:
    the collection afterwards is the collection before with, possibly, more
    records after it.  Nothing is deleted, replaced or reordered. *)
Theorem main_keeps_stored_records
    (embeddings : HuggingFaceEmbeddings) (w : World) :
  files (snd (main embeddings w)) = files w
  /\ exists added,
       collection (snd (main embeddings w)) = collection w ++ added.
Proof.
  destruct (main_shape embeddings w)
    as [wp [[Hfiles [Hadded _]] [Hrun|[[status Hrun]|[e Hrun]]]]];
    rewrite Hrun; cbn [snd]; now split.
Qed.

(** X10. When the embeddings object raises anything but a [TypeError] on
    the probe call, the run ends with that exception right there: the store
    is not read, no file is loaded, nothing is stored. *)
Theorem main_aborts_on_probe_error
    (embeddings : HuggingFaceEmbeddings) (w : World) (what : string) :
  call_outcome embeddings = CallRaises what ->
  main embeddings w
  = (Raise (EmbeddingRaised what),
     mkWorld (files w) (collection w) (mkChroma (Embeddings embeddings))
       (trace w ++ [EvProbe])).
Proof.
  intros Hcall. unfold main. unfold bind at 1. unfold set_db at 1.
  unfold bind at 1. unfold does_vectorstore_exist, bind, emit, raise.
  now rewrite Hcall.
Qed.

(** X11. When the store holds records and one of them has no [source] in
    its metadata, the run ends with [KeyError('source')] after the existence
    check and the listing: no file is loaded and the collection is as
    before. *)
Theorem main_raises_on_missing_source
    (embeddings : HuggingFaceEmbeddings) (w : World) :
  (forall what, call_outcome embeddings <> CallRaises what) ->
  collection w <> [] ->
  stored_sources (map metadata (collection w)) = None ->
  exists h,
    main embeddings w
    = (Raise (KeyError "source"),
       mkWorld (files w) (collection w) h
         (trace w ++ probe_events embeddings ++ [EvGet])).
Proof.
  intros Hcall Hne Hnone. unfold main. unfold bind at 1. unfold set_db at 1.
  unfold bind at 1. rewrite does_vectorstore_exist_run by exact Hcall.
  cbn [files collection db trace].
  destruct (collection w) as [|r records] eqn:Hcol; [now destruct Hne|].
  unfold bind at 1. rewrite append_to_existing_start.
  cbn [collection]. rewrite Hnone.
  eexists. unfold after_get. cbn. now rewrite <- app_assoc.
Qed.

Lemma process_documents_exit (ignored : list string) (w w' : World)
    (status : nat) :
  process_documents ignored w = (Exit status, w') ->
  status = 0
  /\ exists paths,
       w' = mkWorld (files w) (collection w) (db w)
              (trace w ++ map EvLoad paths).
Proof.
  unfold process_documents, load_documents. unfold bind at 1. unfold bind at 1.
  unfold gets at 1.
  match goal with |- context [load_each ?paths w] =>
    pose proof (load_each_outcome loader_load paths w) as Hload;
    destruct (load_each paths w) as [[docs| |] w0];
    [|destruct Hload|discriminate];
    destruct Hload as [-> _];
    destruct docs as [|d docs];
    [intros H; injection H as <- <-; split; [reflexivity|now exists paths]|]
  end.
  unfold bind, emit, ret. discriminate.
Qed.

Lemma probe_events_are_reads (embeddings : HuggingFaceEmbeddings) :
  Forall (fun ev => is_read ev = true) (probe_events embeddings).
Proof.
  unfold probe_events. destruct (keyword_mismatch embeddings);
    repeat constructor.
Qed.

Lemma loads_are_reads (paths : list string) :
  Forall (fun ev => is_read ev = true) (map EvLoad paths).
Proof.
  apply Forall_forall. intros ev Hin.
  apply in_map_iff in Hin as [p [<- _]]. reflexivity.
Qed.

Lemma create_new_unfold (embeddings : HuggingFaceEmbeddings) (w : World) :
  create_new embeddings w
  = match process_documents [] w with
    | (Return texts, w1) =>
        for_each (batches batch_size texts)
          (fun batch_texts =>
             h <- from_documents batch_texts embeddings ;; set_db h) w1
    | (Exit status, w1) => (Exit status, w1)
    | (Raise e, w1) => (Raise e, w1)
    end.
Proof. reflexivity. Qed.

Lemma branch_exit (embeddings : HuggingFaceEmbeddings)
    (vectorstore_exists : bool) (w w' : World) (status : nat) :
  (if vectorstore_exists then append_to_existing else create_new embeddings) w
  = (Exit status, w') ->
  status = 0
  /\ exists evs,
       w' = mkWorld (files w) (collection w) (db w) (trace w ++ evs)
       /\ Forall (fun ev => is_read ev = true) evs.
Proof.
  destruct vectorstore_exists.
  - rewrite append_to_existing_start.
    destruct (stored_sources (map metadata (collection w))) as [ignored|];
      [|discriminate].
    unfold bind at 1.
    destruct (process_documents ignored (after_get w))
      as [[texts|s0|e] w1] eqn:Hproc; [| |discriminate].
    + pose proof (append_loop_outcome add_texts_raises
                    (batches batch_size texts) w1) as Hloop.
      intros Hrun. rewrite Hrun in Hloop. destruct Hloop.
    + intros Hrun. injection Hrun as -> ->.
      destruct (process_documents_exit _ _ Hproc) as [-> [paths ->]].
      split; [reflexivity|]. exists (EvGet :: map EvLoad paths).
      split; [cbn; now rewrite <- app_assoc|].
      constructor; [reflexivity|apply loads_are_reads].
  - rewrite create_new_unfold.
    destruct (process_documents [] w) as [[texts|s0|e] w1] eqn:Hproc;
      [| |discriminate].
    + pose proof (create_loop_outcome add_texts_raises embeddings
                    (batches batch_size texts) w1) as Hloop.
      intros Hrun. rewrite Hrun in Hloop. destruct Hloop.
    + intros Hrun. injection Hrun as -> ->.
      destruct (process_documents_exit _ _ Hproc) as [-> [paths ->]].
      split; [reflexivity|]. exists (map EvLoad paths).
      split; [reflexivity|apply loads_are_reads].
Qed.

(** X12. A run exits only with status 0, and only from the check for new
    documents: by then it has made no call but those of the existence check,
    the listing of stored sources and the loading of files, so the splitter
    was not called, no batch was submitted, and the collection is as it
    was. *)
Theorem main_exits_only_with_nothing_stored
    (embeddings : HuggingFaceEmbeddings) (w w' : World) (status : nat) :
  main embeddings w = (Exit status, w') ->
  status = 0
  /\ collection w' = collection w
  /\ files w' = files w
  /\ Forall (fun ev => is_read ev = true) (events_since w w').
Proof.
  intros Hrun. rewrite main_unfold in Hrun.
  assert (Hcall : forall what, call_outcome embeddings <> CallRaises what).
  { intros what Hc.
    match type of Hrun with
    | context [does_vectorstore_exist embeddings ?w0] =>
        pose proof (does_vectorstore_exist_raises embeddings w0 Hc) as Hd;
        destruct (does_vectorstore_exist embeddings w0) as [r w1]
    end.
    cbn in Hd. subst r. discriminate Hrun. }
  rewrite does_vectorstore_exist_run in Hrun by exact Hcall.
  cbn [files collection db trace] in Hrun.
  match type of Hrun with
  | context [(if ?x then append_to_existing else create_new embeddings) ?w1] =>
      destruct ((if x then append_to_existing else create_new embeddings) w1)
        as [[u|s0|e] w2] eqn:Hbranch; [discriminate| |discriminate]
  end.
  injection Hrun as -> ->.
  destruct (branch_exit _ _ _ Hbranch) as [-> [evs [-> Hevs]]].
  cbn [files collection]. repeat split.
  erewrite events_since_app; [|cbn [trace]; rewrite <- app_assoc; reflexivity].
  apply Forall_app. split; [apply probe_events_are_reads|exact Hevs].
Qed.

(** *** Which files a run loads *)

Lemma grows_by_load_each_in (P : Event -> Prop) (paths : list string) (w : World) :
  (forall p, In p paths -> P (EvLoad p)) ->
  grows_by P w (snd (load_each paths w)).
Proof.
  revert w. induction paths as [|p paths IH]; intros w HP.
  - apply grows_by_refl.
  - cbn [load_each]. apply grows_by_bind.
    + apply grows_by_emit. apply HP. now left.
    + intros _ w'. destruct (load_single_document loader_load p);
        [apply grows_by_refl|].
      apply grows_by_bind.
      * apply IH. intros q Hq. apply HP. now right.
      * intros a w''. apply grows_by_refl.
Qed.

Lemma grows_by_process_documents_in (P : Event -> Prop) (ignored : list string)
    (w : World) :
  (forall p,
     In p (completion_order
             (filtered_files (all_files (files w) source_directory) ignored)) ->
     P (EvLoad p)) ->
  (forall docs, P (EvSplitDocuments docs)) ->
  grows_by P w (snd (process_documents ignored w)).
Proof.
  intros Hload Hsplit. unfold process_documents, load_documents.
  apply grows_by_bind.
  - unfold bind at 1. unfold gets at 1. now apply grows_by_load_each_in.
  - intros [|d docs] w'; [apply grows_by_refl|].
    apply grows_by_bind; [now apply grows_by_emit|].
    intros _ w''. apply grows_by_refl.
Qed.

Hypothesis completion_permutes :
  forall paths, Permutation (completion_order paths) paths.

(** A path that may be loaded from [w]: the scan lists it and no stored
    record names it as its source. *)
Local Abbreviation new_in w p :=
  (In p (all_files (files w) source_directory)
   /\ forall ignored,
        stored_sources (map metadata (collection w)) = Some ignored ->
        ~ In p ignored).

Lemma candidates_not_ignored (all ignored : list string) (p : string) :
  In p (completion_order (filtered_files all ignored)) ->
  In p all /\ ~ In p ignored.
Proof.
  intros Hin. apply (Permutation_in p (completion_permutes _)) in Hin.
  now apply filtered_files_In in Hin.
Qed.

Lemma branch_loads_only_new (embeddings : HuggingFaceEmbeddings) (w : World)
    (vectorstore_exists : bool) :
  vectorstore_exists = match collection w with [] => false | _ :: _ => true end ->
  grows_by (fun ev => forall p, ev = EvLoad p -> new_in w p) w
    (snd ((if vectorstore_exists
           then append_to_existing else create_new embeddings) w)).
Proof.
  intros Hx. destruct vectorstore_exists.
  - rewrite append_to_existing_start.
    assert (Hget : grows_by (fun ev => forall p, ev = EvLoad p -> new_in w p)
                     w (after_get w)).
    { apply (@grows_by_emit _ EvGet w). discriminate. }
    destruct (stored_sources (map metadata (collection w))) as [ignored|] eqn:Hsrc;
      [|exact Hget].
    apply (grows_by_trans Hget).
    apply grows_by_bind.
    + apply grows_by_process_documents_in; [|discriminate].
      intros p Hin q Hq. injection Hq as <-.
      apply candidates_not_ignored in Hin as [Hall Hout].
      split; [exact Hall|]. intros ignored' H. now injection H as <-.
    + intros texts w3. apply grows_by_for_each. intros b w4.
      apply grows_by_add_documents. discriminate.
  - assert (Hcol : collection w = [])
      by (destruct (collection w); [reflexivity|discriminate]).
    apply grows_by_bind.
    + apply grows_by_process_documents_in; [|discriminate].
      intros p Hin q Hq. injection Hq as <-.
      apply candidates_not_ignored in Hin as [Hall _].
      split; [exact Hall|]. intros ignored' H. rewrite Hcol in H.
      injection H as <-. now intros [].
    + intros texts w3. apply grows_by_for_each. intros b w4.
      apply grows_by_from_documents. discriminate.
Qed.

Lemma main_loads_when_probe_passes
    (embeddings : HuggingFaceEmbeddings) (w : World) (p : string) :
  (forall what, call_outcome embeddings <> CallRaises what) ->
  In (EvLoad p) (events_since w (snd (main embeddings w))) ->
  new_in w p.
Proof.
  intros Hcall. rewrite main_unfold.
  rewrite does_vectorstore_exist_run by exact Hcall.
  cbn [files collection db trace].
  match goal with
  | |- context [(if ?x then append_to_existing
                 else create_new embeddings) ?w1] =>
      pose proof (@branch_loads_only_new embeddings w1 x eq_refl) as Hb;
      cbn [files collection] in Hb;
      destruct ((if x then append_to_existing
                 else create_new embeddings) w1) as [[u|s0|e] w2]
  end; cbn [snd] in *;
    destruct Hb as [_ [_ [evs [Htrace Hevs]]]]; cbn [trace] in Htrace;
    rewrite Forall_forall in Hevs;
    (erewrite events_since_app;
       [|unfold emit; cbn [snd trace];
         rewrite Htrace, <- ?app_assoc; reflexivity]);
    rewrite !in_app_iff; intros Hin;
    (assert (Hin' : In (EvLoad p) evs); [|exact (Hevs _ Hin' p eq_refl)]);
    pose proof (probe_events_are_queries embeddings) as Hq;
    rewrite Forall_forall in Hq;
    repeat match goal with
      | H : _ \/ _ |- _ => destruct H as [H|H]
      end;
    try exact Hin;
    try (apply Hq in Hin; discriminate Hin);
    try (destruct Hin as [Hin|[]]; discriminate Hin).
Qed.

(** X13. A run loads only files that the scan lists and that no stored
    record names as its source: a file already in the store is never loaded
    again, whatever the outcome of the run. *)
Theorem main_loads_only_new_files
    (embeddings : HuggingFaceEmbeddings) (w : World) (p : string) :
  In (EvLoad p) (events_since w (snd (main embeddings w))) ->
  In p (all_files (files w) source_directory)
  /\ forall ignored,
       stored_sources (map metadata (collection w)) = Some ignored ->
       ~ In p ignored.
Proof.
  destruct (call_outcome embeddings) as [|msg|what] eqn:Hc.
  - apply main_loads_when_probe_passes. intros what. rewrite Hc. discriminate.
  - apply main_loads_when_probe_passes. intros what. rewrite Hc. discriminate.
  - rewrite main_unfold.
    unfold does_vectorstore_exist, bind, emit, raise. rewrite Hc.
    cbn [snd]. erewrite events_since_app; [|reflexivity].
    intros [H|[]]. discriminate H.
Qed.

(** *** Running the pipeline again *)

Lemma process_documents_loads_candidates (ignored : list string)
    (w w' : World) (r : Result (list Document)) :
  process_documents ignored w = (r, w') ->
  (forall e, r <> Raise e) ->
  exists evs,
    trace w' =
      trace w
      ++ map EvLoad
           (completion_order
              (filtered_files (all_files (files w) source_directory) ignored))
      ++ evs.
Proof.
  unfold process_documents, load_documents. unfold bind at 1. unfold bind at 1.
  unfold gets at 1.
  remember (completion_order
              (filtered_files (all_files (files w) source_directory) ignored))
    as paths eqn:Hpaths.
  clear Hpaths.
  pose proof (load_each_outcome loader_load paths w) as Hload.
  destruct (load_each paths w) as [[docs| |] w0];
    [|destruct Hload|intros H Hr; injection H as <- _; now destruct (Hr e)].
  destruct Hload as [-> _]. destruct docs as [|d docs].
  - intros H _. injection H as _ <-. exists []. cbn [trace].
    now rewrite app_nil_r.
  - unfold bind, emit, ret. cbn [trace fst snd]. intros H _.
    injection H as _ <-. eexists. cbn [trace]. rewrite <- app_assoc.
    reflexivity.
Qed.

Lemma for_each_extends_trace (A : Type) (xs : list A) (body : A -> M unit)
    (w : World) :
  (forall x w', grows_by (fun _ => True) w' (snd (body x w'))) ->
  exists evs, trace (snd (for_each xs body w)) = trace w ++ evs.
Proof.
  intros Hbody.
  destruct (@grows_by_for_each (fun _ => True) A xs body w Hbody)
    as [_ [_ [evs [Htrace _]]]].
  now exists evs.
Qed.

Lemma branch_loads_candidates (embeddings : HuggingFaceEmbeddings)
    (vectorstore_exists : bool) (w w' : World) (r : Result unit) :
  vectorstore_exists = match collection w with [] => false | _ :: _ => true end ->
  (if vectorstore_exists then append_to_existing else create_new embeddings) w
  = (r, w') ->
  (forall e, r <> Raise e) ->
  exists ignored evs1 evs2,
    stored_sources (map metadata (collection w)) = Some ignored
    /\ trace w' =
         trace w ++ evs1
         ++ map EvLoad
              (completion_order
                 (filtered_files (all_files (files w) source_directory) ignored))
         ++ evs2.
Proof.
  intros Hx Hrun Hr. destruct vectorstore_exists.
  - rewrite append_to_existing_start in Hrun.
    destruct (stored_sources (map metadata (collection w))) as [ignored|] eqn:Hsrc;
      [|injection Hrun as <- _; now destruct (Hr (KeyError "source"))].
    unfold bind at 1 in Hrun.
    destruct (process_documents ignored (after_get w))
      as [[texts|s0|e] w1] eqn:Hproc.
    + destruct (process_documents_loads_candidates _ _ Hproc) as [evs Htrace];
        [discriminate|].
      destruct (@for_each_extends_trace _ (batches batch_size texts)
                  add_documents w1) as [evs' Htrace'].
      { intros b w2. apply grows_by_add_documents. exact I. }
      rewrite Hrun in Htrace'. cbn [snd] in Htrace'.
      exists ignored, [EvGet], (evs ++ evs'). split; [reflexivity|].
      rewrite Htrace', Htrace. cbn [after_get trace files].
      now rewrite <- !app_assoc.
    + destruct (process_documents_loads_candidates _ _ Hproc) as [evs Htrace];
        [discriminate|].
      injection Hrun as _ <-.
      exists ignored, [EvGet], evs. split; [reflexivity|].
      rewrite Htrace. cbn [after_get trace files]. now rewrite <- !app_assoc.
    + injection Hrun as <- _. now destruct (Hr e).
  - assert (Hcol : collection w = [])
      by (destruct (collection w); [reflexivity|discriminate]).
    rewrite create_new_unfold in Hrun.
    destruct (process_documents [] w) as [[texts|s0|e] w1] eqn:Hproc.
    + destruct (process_documents_loads_candidates _ _ Hproc) as [evs Htrace];
        [discriminate|].
      destruct (@for_each_extends_trace _ (batches batch_size texts)
                  (fun batch_texts =>
                     h <- from_documents batch_texts embeddings ;; set_db h)
                  w1) as [evs' Htrace'].
      { intros b w2. apply grows_by_from_documents. exact I. }
      rewrite Hrun in Htrace'. cbn [snd] in Htrace'.
      exists [], [], (evs ++ evs'). split; [now rewrite Hcol|].
      rewrite Htrace', Htrace. cbn [app]. now rewrite <- !app_assoc.
    + destruct (process_documents_loads_candidates _ _ Hproc) as [evs Htrace];
        [discriminate|].
      injection Hrun as _ <-.
      exists [], [], evs. split; [now rewrite Hcol|]. exact Htrace.
    + injection Hrun as <- _. now destruct (Hr e).
Qed.

Lemma stored_sources_from (ms : list (list (string * string)))
    (sources : list string) (p : string) :
  stored_sources ms = Some sources -> In p sources ->
  exists m, In m ms /\ dict_get "source" m = Some p.
Proof.
  revert sources. induction ms as [|m ms IH]; intros sources Hs Hin.
  - injection Hs as <-. destruct Hin.
  - cbn in Hs. destruct (dict_get "source" m) as [src|] eqn:Hm; [|discriminate].
    destruct (stored_sources ms) as [rest|]; [|discriminate].
    injection Hs as <-. destruct Hin as [<-|Hin].
    + exists m. split; [now left|exact Hm].
    + destruct (IH rest eq_refl Hin) as [m' [Hm' Hp]].
      exists m'. split; [now right|exact Hp].
Qed.

(** After a run that completed or found nothing new: the source tree and
    the earlier records are as before, and every path the scan lists was
    either excluded by a stored source or loaded by the run. *)
Lemma main_excludes_or_loads (embeddings : HuggingFaceEmbeddings)
    (w0 w1 : World) (r1 : Result unit) :
  main embeddings w0 = (r1, w1) ->
  r1 = Return tt \/ r1 = Exit 0 ->
  (forall what, call_outcome embeddings <> CallRaises what)
  /\ files w1 = files w0
  /\ (exists added, collection w1 = collection w0 ++ added)
  /\ exists ignored,
       stored_sources (map metadata (collection w0)) = Some ignored
       /\ forall p,
            In p (all_files (files w0) source_directory) ->
            In p ignored \/ In (EvLoad p) (events_since w0 w1).
Proof.
  intros Hrun Hr.
  assert (Hcall : forall what, call_outcome embeddings <> CallRaises what).
  { intros what Hc. rewrite main_unfold in Hrun.
    match type of Hrun with
    | context [does_vectorstore_exist embeddings ?wA] =>
        pose proof (does_vectorstore_exist_raises embeddings wA Hc) as Hd;
        destruct (does_vectorstore_exist embeddings wA) as [r w]
    end.
    cbn in Hd. subst r. injection Hrun as <- _. destruct Hr; discriminate. }
  split; [exact Hcall|].
  rewrite main_unfold in Hrun.
  rewrite does_vectorstore_exist_run in Hrun by exact Hcall.
  cbn [files collection db trace] in Hrun.
  match type of Hrun with
  | context [(if ?x then append_to_existing else create_new embeddings) ?wA] =>
      pose proof (@grows_by_branch (fun _ => True) embeddings x wA
                    (fun _ _ => I)) as Hgrow;
      pose proof (@branch_loads_candidates embeddings x wA) as Hloads;
      destruct ((if x then append_to_existing else create_new embeddings) wA)
        as [[u|s0|e] w2]
  end; cbn [snd files collection trace] in Hgrow, Hloads;
    [| |injection Hrun as <- _; destruct Hr; discriminate].
  - destruct (Hloads w2 (Return u) eq_refl eq_refl)
      as [ignored [evs1 [evs2 [Hsrc Htrace]]]]; [discriminate|].
    destruct Hgrow as [Hfiles [Hadded _]].
    injection Hrun as _ <-. unfold emit. cbn [snd files collection].
    split; [exact Hfiles|]. split; [exact Hadded|].
    exists ignored. split; [exact Hsrc|]. intros p Hp.
    destruct (in_dec string_dec p ignored) as [Hin|Hout]; [now left|right].
    erewrite events_since_app;
      [|cbn [trace]; rewrite Htrace, <- !app_assoc; reflexivity].
    rewrite !in_app_iff. right. right. left.
    apply in_map.
    apply (Permutation_in p (Permutation_sym (completion_permutes _))).
    apply filtered_files_In. now split.
  - destruct (Hloads w2 (Exit s0) eq_refl eq_refl)
      as [ignored [evs1 [evs2 [Hsrc Htrace]]]]; [discriminate|].
    destruct Hgrow as [Hfiles [Hadded _]].
    injection Hrun as _ <-.
    split; [exact Hfiles|]. split; [exact Hadded|].
    exists ignored. split; [exact Hsrc|]. intros p Hp.
    destruct (in_dec string_dec p ignored) as [Hin|Hout]; [now left|right].
    erewrite events_since_app;
      [|rewrite Htrace, <- !app_assoc; reflexivity].
    rewrite !in_app_iff. right. right. left.
    apply in_map.
    apply (Permutation_in p (Permutation_sym (completion_permutes _))).
    apply filtered_files_In. now split.
Qed.

(** C8, for the runs it holds of.  Take a first run that completed (or
    found nothing new), after which every file it loaded has at least one
    record in the store whose [source] is the path it was scanned under, and
    every stored record has a [source].  Then a second run on the same
    source tree and the collection the first one left loads no file: it ends
    with exit status 0 having made only the calls of the existence check and
    of the listing of stored sources. *)
Theorem rerun_loads_nothing (embeddings : HuggingFaceEmbeddings)
    (w0 w1 again : World) (r1 : Result unit) :
  main embeddings w0 = (r1, w1) ->
  r1 = Return tt \/ r1 = Exit 0 ->
  (forall p, In (EvLoad p) (events_since w0 w1) ->
     exists record,
       In record (collection w1)
       /\ dict_get "source" (metadata record) = Some p) ->
  (forall record, In record (collection w1) ->
     exists source, dict_get "source" (metadata record) = Some source) ->
  files again = files w1 ->
  collection again = collection w1 ->
  exists w2,
    main embeddings again = (Exit 0, w2)
    /\ collection w2 = collection w1
    /\ Forall (fun ev => is_index_query ev = true) (events_since again w2).
Proof.
  intros Hrun Hr Hstored Hkeys Hfiles Hcol.
  destruct (@main_excludes_or_loads embeddings w0 w1 r1 Hrun Hr)
    as [Hcall [Hsame [[added Hadded] [ignored [Hsrc Hcover]]]]].
  destruct (stored_sources_total (map metadata (collection w1)))
    as [sources Hsources].
  { intros m Hm. apply in_map_iff in Hm as [record [<- Hrecord]].
    now apply Hkeys. }
  assert (Hall : forall p, In p (all_files (files w0) source_directory) ->
                   In p sources).
  { intros p Hp. destruct (Hcover p Hp) as [Hin|Hloaded].
    - destruct (@stored_sources_from (map metadata (collection w0)) ignored p
                  Hsrc Hin) as [m [Hm Hpm]].
      eapply stored_sources_In; [exact Hsources| |exact Hpm].
      rewrite Hadded, map_app. apply in_or_app. now left.
    - destruct (Hstored p Hloaded) as [record [Hrecord Hpr]].
      eapply stored_sources_In; [exact Hsources| |exact Hpr].
      now apply in_map. }
  destruct (@main_nothing_new loader_load split_documents completion_order
              add_texts_raises source_directory completion_permutes
              embeddings again sources) as [h [evs [Hagain Hq]]].
  - exact Hcall.
  - now rewrite Hcol.
  - apply covered_filtered_files_nil. rewrite Hfiles, Hsame. exact Hall.
  - eexists. split; [exact Hagain|]. cbn [collection]. split; [exact Hcol|].
    erewrite events_since_app; [exact Hq|reflexivity].
Qed.

End Branches.

(** ** The exclusion composes *)

Lemma mem_app (p : string) (a b : list string) :
  PyStr.mem p (a ++ b) = PyStr.mem p a || PyStr.mem p b.
Proof. unfold PyStr.mem. apply existsb_app. Qed.

(** X14. Excluding nothing keeps every scanned path; excluding two lists
    one after the other is excluding them together; and excluding the same
    list again changes nothing. *)
Theorem filtered_files_compose (all ignored1 ignored2 : list string) :
  filtered_files all [] = all
  /\ filtered_files (filtered_files all ignored1) ignored2
     = filtered_files all (ignored1 ++ ignored2)
  /\ filtered_files (filtered_files all ignored1) ignored1
     = filtered_files all ignored1.
Proof.
  unfold filtered_files. repeat split.
  - induction all as [|p all IH]; [reflexivity|].
    cbn [filter]. unfold PyStr.mem at 1. cbn [existsb negb]. now rewrite IH.
  - induction all as [|p all IH]; [reflexivity|]. cbn [filter].
    rewrite mem_app.
    destruct (PyStr.mem p ignored1) eqn:H1; cbn [negb orb]; [exact IH|].
    cbn [filter].
    destruct (PyStr.mem p ignored2) eqn:H2; cbn [negb];
      [exact IH|now rewrite IH].
  - induction all as [|p all IH]; [reflexivity|]. cbn [filter].
    destruct (PyStr.mem p ignored1) eqn:H1; cbn [negb]; [exact IH|].
    cbn [filter]. rewrite H1. cbn [negb]. now rewrite IH.
Qed.

(** ** The further statements at sample runs *)

Lemma reversed_permutes (paths : list string) :
  Permutation (MoreSamples.reversed paths) paths.
Proof. symmetry. apply Permutation_rev. Qed.

Lemma scanned_paths_are_supported_witness :
  In "source_documents/docs/a.PDF"
     (all_files [["docs"; "a.PDF"]] "source_documents")
  /\ (exists entry, registry_entry "source_documents/docs/a.PDF" = Some entry)
  /\ forall msg,
       load_single_document Sample.one_text "source_documents/docs/a.PDF"
       <> inl (ValueError msg).
Proof.
  assert (Hin : In "source_documents/docs/a.PDF"
                   (all_files [["docs"; "a.PDF"]] "source_documents"))
    by (vm_compute; left; reflexivity).
  split; [exact Hin|].
  exact (@scanned_paths_are_supported Sample.one_text [["docs"; "a.PDF"]]
           "source_documents" "source_documents/docs/a.PDF" Hin).
Defined.

Lemma load_documents_order_independent_witness :
  load_documents Sample.one_text Sample.in_order "source_documents" []
    (Sample.world_of [["a.txt"]; ["b.txt"]] [])
  = (Return [mkDocument "text" [("source", "source_documents/a.txt")];
             mkDocument "text" [("source", "source_documents/b.txt")]],
     snd (load_documents Sample.one_text Sample.in_order "source_documents" []
            (Sample.world_of [["a.txt"]; ["b.txt"]] [])))
  /\ exists docs2 w2,
       load_documents Sample.one_text MoreSamples.reversed "source_documents" []
         (Sample.world_of [["a.txt"]; ["b.txt"]] [])
       = (Return docs2, w2)
       /\ Permutation
            [mkDocument "text" [("source", "source_documents/a.txt")];
             mkDocument "text" [("source", "source_documents/b.txt")]]
            docs2.
Proof.
  assert (Hrun :
    load_documents Sample.one_text Sample.in_order "source_documents" []
      (Sample.world_of [["a.txt"]; ["b.txt"]] [])
    = (Return [mkDocument "text" [("source", "source_documents/a.txt")];
               mkDocument "text" [("source", "source_documents/b.txt")]],
       snd (load_documents Sample.one_text Sample.in_order "source_documents" []
              (Sample.world_of [["a.txt"]; ["b.txt"]] []))))
    by (vm_compute; reflexivity).
  split; [exact Hrun|].
  exact (@load_documents_order_independent Sample.one_text Sample.in_order
           MoreSamples.reversed "source_documents" []
           (Sample.world_of [["a.txt"]; ["b.txt"]] []) _ _
           in_order_permutes reversed_permutes Hrun).
Defined.

Lemma append_to_existing_submits_witness :
  stored_sources (map metadata (collection MoreSamples.pdf_beside_stored))
  = Some ["source_documents/a.txt"]
  /\ MoreSamples.pdf_process_after_get
     = (Return Sample.long_pdf_texts, snd MoreSamples.pdf_process_after_get)
  /\ exists w2,
       MoreSamples.pdf_append_to_existing MoreSamples.pdf_beside_stored
       = (Return tt, w2)
       /\ trace w2
          = trace (snd MoreSamples.pdf_process_after_get)
            ++ map EvAddDocuments (batches batch_size Sample.long_pdf_texts)
       /\ collection w2
          = collection MoreSamples.pdf_beside_stored ++ Sample.long_pdf_texts
       /\ db w2 = db MoreSamples.pdf_beside_stored
       /\ files w2 = files MoreSamples.pdf_beside_stored.
Proof.
  assert (Hsrc :
    stored_sources (map metadata (collection MoreSamples.pdf_beside_stored))
    = Some ["source_documents/a.txt"]) by reflexivity.
  assert (Hproc : MoreSamples.pdf_process_after_get
    = (Return Sample.long_pdf_texts, snd MoreSamples.pdf_process_after_get))
    by (vm_compute; reflexivity).
  split; [exact Hsrc|]. split; [exact Hproc|].
  exact (@append_to_existing_submits_by_add_documents
           (Sample.read_pages Sample.long_pdf) Sample.whole_documents
           Sample.in_order Sample.never_raises "source_documents"
           MoreSamples.pdf_beside_stored
           (snd MoreSamples.pdf_process_after_get)
           ["source_documents/a.txt"] Sample.long_pdf_texts
           Hsrc Hproc (fun b _ => eq_refl)).
Defined.

Lemma append_to_existing_stops_witness :
  batches batch_size Sample.long_pdf_texts
  = [firstn 50 Sample.long_pdf_texts] ++ skipn 50 Sample.long_pdf_texts :: []
  /\ MoreSamples.rejects_short (skipn 50 Sample.long_pdf_texts)
     = Some "embedding failed"
  /\ exists w2,
       MoreSamples.pdf_append_rejecting MoreSamples.pdf_beside_stored
       = (Raise (BackendRaised "embedding failed"), w2)
       /\ collection w2
          = collection MoreSamples.pdf_beside_stored
            ++ concat [firstn 50 Sample.long_pdf_texts]
       /\ trace w2
          = trace (snd MoreSamples.pdf_process_after_get)
            ++ map EvAddDocuments
                 ([firstn 50 Sample.long_pdf_texts]
                  ++ [skipn 50 Sample.long_pdf_texts])
       /\ db w2 = db MoreSamples.pdf_beside_stored.
Proof.
  assert (Hsrc :
    stored_sources (map metadata (collection MoreSamples.pdf_beside_stored))
    = Some ["source_documents/a.txt"]) by reflexivity.
  assert (Hproc : MoreSamples.pdf_process_after_get
    = (Return Sample.long_pdf_texts, snd MoreSamples.pdf_process_after_get))
    by (vm_compute; reflexivity).
  assert (Hsplit : batches batch_size Sample.long_pdf_texts
    = [firstn 50 Sample.long_pdf_texts] ++ skipn 50 Sample.long_pdf_texts :: [])
    by (vm_compute; reflexivity).
  assert (Hpre : forall x, In x [firstn 50 Sample.long_pdf_texts] ->
                   MoreSamples.rejects_short x = None).
  { intros x [<-|[]]. vm_compute. reflexivity. }
  assert (Hb : MoreSamples.rejects_short (skipn 50 Sample.long_pdf_texts)
               = Some "embedding failed") by (vm_compute; reflexivity).
  split; [exact Hsplit|]. split; [exact Hb|].
  exact (@append_to_existing_stops_at_rejected_batch
           (Sample.read_pages Sample.long_pdf) Sample.whole_documents
           Sample.in_order MoreSamples.rejects_short "source_documents"
           MoreSamples.pdf_beside_stored
           (snd MoreSamples.pdf_process_after_get)
           ["source_documents/a.txt"] Sample.long_pdf_texts
           [firstn 50 Sample.long_pdf_texts] []
           (skipn 50 Sample.long_pdf_texts) "embedding failed"
           Hsrc Hproc Hsplit Hpre Hb).
Defined.

Lemma main_aborts_on_probe_error_witness :
  call_outcome MoreSamples.embeddings_broken = CallRaises "model file not found"
  /\ Sample.one_text_main MoreSamples.embeddings_broken
       (Sample.world_of [["a.txt"]] [])
     = (Raise (EmbeddingRaised "model file not found"),
        mkWorld [["a.txt"]] []
          (mkChroma (Embeddings MoreSamples.embeddings_broken)) [EvProbe]).
Proof.
  split; [reflexivity|].
  exact (@main_aborts_on_probe_error Sample.one_text Sample.whole_documents
           Sample.in_order Sample.never_raises "source_documents"
           MoreSamples.embeddings_broken (Sample.world_of [["a.txt"]] [])
           "model file not found" eq_refl).
Defined.

Lemma main_raises_on_missing_source_witness :
  stored_sources
    (map metadata
       (collection
          (Sample.world_of [["a.txt"]] [MoreSamples.stored_without_source])))
  = None
  /\ exists h,
       Sample.one_text_main Sample.embeddings_ok
         (Sample.world_of [["a.txt"]] [MoreSamples.stored_without_source])
       = (Raise (KeyError "source"),
          mkWorld [["a.txt"]] [MoreSamples.stored_without_source] h
            ([] ++ probe_events Sample.embeddings_ok ++ [EvGet])).
Proof.
  split; [reflexivity|].
  refine (@main_raises_on_missing_source Sample.one_text Sample.whole_documents
            Sample.in_order Sample.never_raises "source_documents"
            Sample.embeddings_ok
            (Sample.world_of [["a.txt"]] [MoreSamples.stored_without_source])
            _ _ eq_refl).
  - intros what. discriminate.
  - discriminate.
Defined.

Lemma main_exits_only_with_nothing_stored_witness :
  Sample.one_text_main Sample.embeddings_ok
    (Sample.world_of [["a.txt"]] [Sample.stored_a_txt])
  = (Exit 0,
     snd (Sample.one_text_main Sample.embeddings_ok
            (Sample.world_of [["a.txt"]] [Sample.stored_a_txt])))
  /\ 0 = 0
  /\ collection (snd (Sample.one_text_main Sample.embeddings_ok
                        (Sample.world_of [["a.txt"]] [Sample.stored_a_txt])))
     = [Sample.stored_a_txt]
  /\ files (snd (Sample.one_text_main Sample.embeddings_ok
                   (Sample.world_of [["a.txt"]] [Sample.stored_a_txt])))
     = [["a.txt"]]
  /\ Forall (fun ev => is_read ev = true)
       (events_since (Sample.world_of [["a.txt"]] [Sample.stored_a_txt])
          (snd (Sample.one_text_main Sample.embeddings_ok
                  (Sample.world_of [["a.txt"]] [Sample.stored_a_txt])))).
Proof.
  assert (Hrun :
    Sample.one_text_main Sample.embeddings_ok
      (Sample.world_of [["a.txt"]] [Sample.stored_a_txt])
    = (Exit 0,
       snd (Sample.one_text_main Sample.embeddings_ok
              (Sample.world_of [["a.txt"]] [Sample.stored_a_txt]))))
    by (vm_compute; reflexivity).
  split; [exact Hrun|].
  exact (@main_exits_only_with_nothing_stored Sample.one_text
           Sample.whole_documents Sample.in_order Sample.never_raises
           "source_documents" Sample.embeddings_ok
           (Sample.world_of [["a.txt"]] [Sample.stored_a_txt]) _ 0 Hrun).
Defined.

Lemma main_loads_only_new_files_witness :
  In (EvLoad "source_documents/b.txt")
     (events_since MoreSamples.two_files_one_stored
        (snd (Sample.one_text_main Sample.embeddings_ok
                MoreSamples.two_files_one_stored)))
  /\ In "source_documents/b.txt"
        (all_files (files MoreSamples.two_files_one_stored) "source_documents")
  /\ forall ignored,
       stored_sources
         (map metadata (collection MoreSamples.two_files_one_stored))
       = Some ignored ->
       ~ In "source_documents/b.txt" ignored.
Proof.
  assert (Hin : In (EvLoad "source_documents/b.txt")
     (events_since MoreSamples.two_files_one_stored
        (snd (Sample.one_text_main Sample.embeddings_ok
                MoreSamples.two_files_one_stored))))
    by (vm_compute; right; right; right; left; reflexivity).
  split; [exact Hin|].
  exact (@main_loads_only_new_files Sample.one_text Sample.whole_documents
           Sample.in_order Sample.never_raises "source_documents"
           in_order_permutes Sample.embeddings_ok
           MoreSamples.two_files_one_stored "source_documents/b.txt" Hin).
Defined.

(** ** Dispatch on the extension of a file *)

Lemma rsplit_last_is_suffix (sep : ascii) (s : string) :
  exists pre, s = (pre ++ PyStr.rsplit_last sep s)%string.
Proof.
  induction s as [|c s IH]; [now exists ""|].
  cbn [PyStr.rsplit_last]. destruct (PyStr.mem_char sep s).
  - destruct IH as [pre Hpre]. exists (String c pre). cbn. now rewrite <- Hpre.
  - destruct (Ascii.eqb c sep); [now exists (String c "")|now exists ""].
Qed.

Lemma rsplit_last_through (sep : ascii) (a b : string) :
  PyStr.mem_char sep b = true ->
  PyStr.rsplit_last sep (a ++ b)%string = PyStr.rsplit_last sep b.
Proof.
  intros Hb. induction a as [|c a IH]; [reflexivity|].
  cbn [String.append PyStr.rsplit_last].
  now rewrite mem_char_append, Hb, orb_true_r.
Qed.

Lemma ext_of_file_extension (file_path e : string) :
  file_extension file_path = Some e -> ext_of file_path = PyStr.lower e.
Proof.
  unfold file_extension, basename, ext_of.
  destruct (PyStr.mem_char "." (PyStr.rsplit_last "/" file_path)) eqn:Hdot;
    [|discriminate].
  intros H. injection H as <-.
  destruct (rsplit_last_is_suffix "/" file_path) as [pre Hpre].
  rewrite Hpre at 1. now rewrite rsplit_last_through.
Qed.

(** X15. For a file whose name has an extension (a dot in the name),
    [load_single_document] goes by that extension, lowercased: when it is a
    key of [LOADER_MAPPING] the outcome is that of the registered loader,
    called on the path as given with the registered arguments, and when it
    is not the [ValueError] for an unsupported extension is raised. *)
Theorem load_single_document_by_extension
    (loader_load : LoaderClass -> string -> LoaderArgs -> string + list Document)
    (file_path e : string) :
  file_extension file_path = Some e ->
  match dict_get (PyStr.lower e) LOADER_MAPPING with
  | Some (loader_class, loader_args) =>
      load_single_document loader_load file_path
      = match loader_load loader_class file_path loader_args with
        | inl what => inl (LoaderRaised what)
        | inr docs => inr docs
        end
  | None =>
      exists msg, load_single_document loader_load file_path = inl (ValueError msg)
  end
  /\ ((exists msg,
         load_single_document loader_load file_path = inl (ValueError msg))
      <-> ~ In (PyStr.lower e) (map fst LOADER_MAPPING)).
Proof.
  intros Hext. apply ext_of_file_extension in Hext.
  rewrite <- dict_get_none_iff, load_single_document_by_entry.
  unfold registry_entry. rewrite Hext.
  destruct (dict_get (PyStr.lower e) LOADER_MAPPING) as [[cls args]|].
  - split; [reflexivity|]. split; [|discriminate].
    intros [msg H]. destruct (loader_load cls file_path args); discriminate.
  - split; [eexists; reflexivity|]. split; [reflexivity|].
    intros _. eexists. reflexivity.
Qed.

Lemma load_single_document_by_extension_witness :
  file_extension "docs/Report.Pdf" = Some ".Pdf"
  /\ match dict_get (PyStr.lower ".Pdf") LOADER_MAPPING with
     | Some (loader_class, loader_args) =>
         load_single_document Sample.one_text "docs/Report.Pdf"
         = match Sample.one_text loader_class "docs/Report.Pdf" loader_args with
           | inl what => inl (LoaderRaised what)
           | inr docs => inr docs
           end
     | None =>
         exists msg,
           load_single_document Sample.one_text "docs/Report.Pdf"
           = inl (ValueError msg)
     end
  /\ ((exists msg,
         load_single_document Sample.one_text "docs/Report.Pdf"
         = inl (ValueError msg))
      <-> ~ In (PyStr.lower ".Pdf") (map fst LOADER_MAPPING)).
Proof.
  split; [reflexivity|].
  exact (@load_single_document_by_extension Sample.one_text
           "docs/Report.Pdf" ".Pdf" eq_refl).
Defined.

(** X2 at a tree with a hidden directory and a mixed-case extension. *)
Lemma scan_lists_each_entry_once_witness :
  Glob.has_magic "source_documents" = false
  /\ Permutation
       (all_files [["a.txt"]; ["docs"; "B.PDF"]; [".hidden"; "c.txt"];
                   ["notes.Md"]] "source_documents")
       (map (rendered "source_documents")
          (filter is_scanned
             [["a.txt"]; ["docs"; "B.PDF"]; [".hidden"; "c.txt"];
              ["notes.Md"]])).
Proof.
  split; [reflexivity|].
  exact (@scan_lists_each_entry_once
           [["a.txt"]; ["docs"; "B.PDF"]; [".hidden"; "c.txt"]; ["notes.Md"]]
           "source_documents" eq_refl).
Defined.

(** C8 at a text file with some text, under the splitter that drops empty
    texts: the first run stores its chunk, the second run exits having
    loaded nothing. *)
Lemma rerun_loads_nothing_witness :
  MoreSamples.hello_main Sample.embeddings_ok
    (Sample.world_of [["hello.txt"]] [])
  = (Return tt,
     snd (MoreSamples.hello_main Sample.embeddings_ok
            (Sample.world_of [["hello.txt"]] [])))
  /\ collection (snd (MoreSamples.hello_main Sample.embeddings_ok
                        (Sample.world_of [["hello.txt"]] [])))
     = [MoreSamples.stored_hello_txt]
  /\ exists w2,
       MoreSamples.hello_main Sample.embeddings_ok
         (Sample.world_of [["hello.txt"]] [MoreSamples.stored_hello_txt])
       = (Exit 0, w2)
       /\ collection w2
          = collection (snd (MoreSamples.hello_main Sample.embeddings_ok
                               (Sample.world_of [["hello.txt"]] [])))
       /\ Forall (fun ev => is_index_query ev = true)
            (events_since
               (Sample.world_of [["hello.txt"]] [MoreSamples.stored_hello_txt])
               w2).
Proof.
  assert (Hrun :
    MoreSamples.hello_main Sample.embeddings_ok
      (Sample.world_of [["hello.txt"]] [])
    = (Return tt,
       snd (MoreSamples.hello_main Sample.embeddings_ok
              (Sample.world_of [["hello.txt"]] []))))
    by (vm_compute; reflexivity).
  assert (Hcol :
    collection (snd (MoreSamples.hello_main Sample.embeddings_ok
                       (Sample.world_of [["hello.txt"]] [])))
    = [MoreSamples.stored_hello_txt]) by (vm_compute; reflexivity).
  assert (Hstored : forall p,
    In (EvLoad p)
       (events_since (Sample.world_of [["hello.txt"]] [])
          (snd (MoreSamples.hello_main Sample.embeddings_ok
                  (Sample.world_of [["hello.txt"]] [])))) ->
    exists record,
      In record
         (collection (snd (MoreSamples.hello_main Sample.embeddings_ok
                             (Sample.world_of [["hello.txt"]] []))))
      /\ dict_get "source" (metadata record) = Some p).
  { intros p Hin. rewrite Hcol. vm_compute in Hin.
    repeat (destruct Hin as [Hin|Hin]; try discriminate Hin); [|destruct Hin].
    injection Hin as <-. exists MoreSamples.stored_hello_txt.
    split; [now left|reflexivity]. }
  assert (Hkeys : forall record,
    In record
       (collection (snd (MoreSamples.hello_main Sample.embeddings_ok
                           (Sample.world_of [["hello.txt"]] [])))) ->
    exists source, dict_get "source" (metadata record) = Some source).
  { intros record Hin. rewrite Hcol in Hin. destruct Hin as [<-|[]].
    eexists. reflexivity. }
  split; [exact Hrun|]. split; [exact Hcol|].
  exact (@rerun_loads_nothing
           (Sample.read_pages MoreSamples.hello_txt) Sample.short_texts
           Sample.in_order Sample.never_raises "source_documents"
           in_order_permutes Sample.embeddings_ok
           (Sample.world_of [["hello.txt"]] [])
           (snd (MoreSamples.hello_main Sample.embeddings_ok
                   (Sample.world_of [["hello.txt"]] [])))
           (Sample.world_of [["hello.txt"]] [MoreSamples.stored_hello_txt])
           (Return tt)
           Hrun (or_introl eq_refl) Hstored Hkeys eq_refl Hcol).
Defined.
